(** * GraymapImage.h: a single-header PGM/PBM reader

    Shallow embedding of [ImageUtils::GraymapImage] (src/GraymapImage.h) and
    of the part of the C++ stream library it calls, followed by the
    properties of the loader.

    Conventions of the embedding:
    - [unsigned int] is a [Z] in [0, 2^32) with the wrap-around written out
      ([wrap32]); [unsigned short] is a [Z] in [0, 2^16); [unsigned char] is
      a [Z] in [0, 256).
    - a file is [option (list ascii)]: [None] is a file that cannot be opened.
    - an input stream is its unread characters and its [eofbit] and
      [failbit] ([badbit] is never set by a stream over memory); the stream
      functions follow the C++11 library in the "C" locale with the default
      flags ([skipws], [dec]): a failed numeric extraction stores 0, or the
      largest value on overflow; a failed sentry stores nothing; [peek] at
      the end of the input sets [eofbit].
    - [vector::operator[]] out of range is undefined behaviour, a loop that
      cannot exit diverges: [LoadImage] returns an [outcome].
    - [vector::at] out of range throws [std::out_of_range]: [GetPixel]
      returns an [option].
    - memory is unbounded ([vector::resize] never throws). *)

From Stdlib Require Import ZArith Lia Ascii String List Bool.
From stdpp Require Import base tactics option list.
Import ListNotations.
Local Open Scope Z_scope.

(** ** Characters and machine integers *)

Definition uchar_of (c : ascii) : Z := Z.of_N (N_of_ascii c).

Definition UINT_MAX : Z := 2 ^ 32 - 1.
Definition USHRT_MAX : Z := 2 ^ 16 - 1.

Definition wrap32 (z : Z) : Z := z mod 2 ^ 32.

(** [isspace] of <cctype> in the "C" locale: space, \t, \n, \v, \f, \r. *)
Definition isspace (c : ascii) : bool :=
  (uchar_of c =? 32) || ((9 <=? uchar_of c) && (uchar_of c <=? 13)).

(** [isspace] applied to the [int] that [peek] returns; [None] is
    [Traits::eof()], which is not a space. *)
Definition isspace_int (c : option ascii) : bool :=
  match c with
  | Some c => isspace c
  | None => false
  end.

Definition isdigit (c : ascii) : bool :=
  (48 <=? uchar_of c) && (uchar_of c <=? 57).

Definition digit_value (c : ascii) : Z := uchar_of c - 48.

Definition newline : ascii := "010"%char.
Definition hash : ascii := "#"%char.

(** ** Input streams *)

Module IStream.

Record istream : Type := mk_istream {
  rdbuf : list ascii;   (* the characters not yet extracted *)
  eofbit : bool;
  failbit : bool
}.

Definition good (s : istream) : bool := negb (eofbit s) && negb (failbit s).

Definition setstate_fail (s : istream) : istream :=
  mk_istream (rdbuf s) (eofbit s) true.

Definition setstate_eof (s : istream) : istream :=
  mk_istream (rdbuf s) true (failbit s).

Definition setstate_eof_fail (s : istream) : istream :=
  mk_istream (rdbuf s) true true.

Definition with_rdbuf (s : istream) (b : list ascii) : istream :=
  mk_istream b (eofbit s) (failbit s).

Fixpoint skipws (l : list ascii) : list ascii :=
  match l with
  | c :: l' => if isspace c then skipws l' else l
  | [] => []
  end.

(** [istream::sentry]: fails (setting [failbit]) on a stream that is not
    good; otherwise, for a formatted input function, discards leading
    whitespace, and fails with [eofbit | failbit] when that reaches the end. *)
Definition sentry (noskipws : bool) (s : istream) : bool * istream :=
  if good s then
    if noskipws then (true, s)
    else
      match skipws (rdbuf s) with
      | [] => (false, setstate_eof_fail (with_rdbuf s []))
      | b => (true, with_rdbuf s b)
      end
  else (false, setstate_fail s).

(** [ifstream infile(filename)]: a file that cannot be opened leaves the
    stream with [failbit] set. *)
Definition ifstream (file : option (list ascii)) : istream :=
  match file with
  | Some bytes => mk_istream bytes false false
  | None => mk_istream [] false true
  end.

(** The characters before the first ['\n'] and, when there is one, what
    follows it. *)
Fixpoint split_line (l : list ascii) : list ascii * option (list ascii) :=
  match l with
  | [] => ([], None)
  | c :: l' =>
      if Ascii.eqb c newline then ([], Some l')
      else let '(line, rest) := split_line l' in (c :: line, rest)
  end.

(** [std::getline(is, str)]: [str] is erased only when the sentry
    succeeds; the delimiter is extracted and dropped; reaching the end sets
    [eofbit]; extracting nothing at all sets [failbit]. *)
Definition getline (s : istream) (str : string) : string * istream :=
  let '(ok, s) := sentry true s in
  if ok then
    match split_line (rdbuf s) with
    | (line, Some rest) => (string_of_list_ascii line, with_rdbuf s rest)
    | ([], None) => (EmptyString, setstate_eof_fail (with_rdbuf s []))
    | (line, None) => (string_of_list_ascii line, setstate_eof (with_rdbuf s []))
    end
  else (str, s).

(** [is.peek()]: [None] is [Traits::eof()]. *)
Definition peek (s : istream) : option ascii * istream :=
  let '(ok, s) := sentry true s in
  if ok then
    match rdbuf s with
    | c :: _ => (Some c, s)
    | [] => (None, setstate_eof s)
    end
  else (None, s).

(** [is.read((char * ) &c, 1)] on an [unsigned char c] holding [old]. *)
Definition read (s : istream) (old : Z) : Z * istream :=
  let '(ok, s) := sentry true s in
  if ok then
    match rdbuf s with
    | c :: rest => (uchar_of c, with_rdbuf s rest)
    | [] => (old, setstate_eof_fail s)
    end
  else (old, s).

(** [is >> c] for an [unsigned char c] holding [old]: one character, after
    the whitespace the sentry skips. *)
Definition extract_uchar (s : istream) (old : Z) : Z * istream :=
  let '(ok, s) := sentry false s in
  if ok then
    match rdbuf s with
    | c :: rest => (uchar_of c, with_rdbuf s rest)
    | [] => (old, setstate_eof_fail s)
    end
  else (old, s).

(** The longest run of decimal digits: its value (accumulated without
    bound), its length and what follows it. *)
Fixpoint scan_digits (acc : Z) (n : nat) (l : list ascii) : Z * nat * list ascii :=
  match l with
  | c :: l' =>
      if isdigit c then scan_digits (10 * acc + digit_value c) (S n) l'
      else (acc, n, l)
  | [] => (acc, n, [])
  end.

Definition is_nil {A} (l : list A) : bool :=
  match l with
  | [] => true
  | _ => false
  end.

(** [num_get::get] for an unsigned type of maximum [max]: an optional sign,
    then decimal digits. No digit: 0 and [failbit]. A value above [max]:
    [max] and [failbit]. A minus sign negates in the unsigned type. Reaching
    the end of the input sets [eofbit]. Returns the value, the failure flag,
    the end flag and the rest of the input. *)
Definition num_get_unsigned (max : Z) (l : list ascii)
  : Z * bool * bool * list ascii :=
  let '(negative, l1) :=
    match l with
    | c :: l' =>
        if Ascii.eqb c "-" then (true, l')
        else if Ascii.eqb c "+" then (false, l')
        else (false, l)
    | [] => (false, [])
    end in
  let '(result, ndigits, rest) := scan_digits 0 0 l1 in
  if Nat.eqb ndigits 0 then (0, true, is_nil rest, rest)
  else if max <? result then (max, true, is_nil rest, rest)
  else ((if negative then (max + 1 - result) mod (max + 1) else result),
        false, is_nil rest, rest).

(** [is >> v] for an unsigned integer [v] holding [old]. When the sentry
    fails [v] is untouched. *)
Definition extract_unsigned (max : Z) (s : istream) (old : Z) : Z * istream :=
  let '(ok, s) := sentry false s in
  if ok then
    let '(v, fail, eof, rest) := num_get_unsigned max (rdbuf s) in
    (v, mk_istream rest (eofbit s || eof) (failbit s || fail))
  else (old, s).

(** [stringstream stream; stream << infile.rdbuf()]: every unread
    character of the file moves to the new stream; inserting no character
    sets [failbit] on it. *)
Definition insert_rdbuf (infile : istream) : istream :=
  mk_istream (rdbuf infile) false (is_nil (rdbuf infile)).

End IStream.
Import IStream.

(** ** Outcomes of a call *)

Inductive outcome (A : Type) : Type :=
| Returned (a : A)
| Undefined     (* an out-of-range [operator[]] *)
| Diverges.     (* a loop that never exits *)
Arguments Returned {A} a.
Arguments Undefined {A}.
Arguments Diverges {A}.

#[global] Instance outcome_bind : MBind outcome := fun A B f m =>
  match m with
  | Returned a => f a
  | Undefined => Undefined
  | Diverges => Diverges
  end.

(** [n] iterations of [for (i = lo; ...; i += step) body], threading the
    state. *)
Fixpoint for_loop {S : Type} (step : Z) (n : nat) (lo : Z)
    (body : Z -> S -> outcome S) (s : S) : outcome S :=
  match n with
  | O => Returned s
  | S n' => s' ← body lo s; for_loop step n' (lo + step) body s'
  end.

(** [for (unsigned int i = 0; i < hi; ++i) body]. *)
Definition for_each {S : Type} (hi : Z) (body : Z -> S -> outcome S) (s : S)
  : outcome S :=
  for_loop 1 (Z.to_nat hi) 0 body s.

(** [for (unsigned int i = 0; i < hi; i += 8) body]. When [hi] is above
    [2^32 - 8] the counter wraps from [2^32 - 8] to [0] before the test can
    fail and the loop starts again. *)
Definition for_each_8 {S : Type} (hi : Z) (body : Z -> S -> outcome S) (s : S)
  : outcome S :=
  if 2 ^ 32 - 8 <? hi then Diverges
  else for_loop 8 (Z.to_nat ((hi + 7) / 8)) 0 body s.

(** ** The class *)

Record GraymapImage : Type := mk_image {
  _data : list Z;       (* vector<unsigned char> *)
  _width : Z;           (* unsigned int *)
  _height : Z;          (* unsigned int *)
  _max_value : Z        (* unsigned short *)
}.

(** [GraymapImage::GraymapImage()] *)
Definition GraymapImage_new : GraymapImage := mk_image [] 0 0 255.

Definition IsInitialized (img : GraymapImage) : bool :=
  negb (_width img =? 0) && negb (_height img =? 0)
  && (0 <? Z.of_nat (length (_data img))).

Definition GetWidth (img : GraymapImage) : Z := _width img.
Definition GetHeight (img : GraymapImage) : Z := _height img.
Definition GetMaxValue (img : GraymapImage) : Z := _max_value img.

(** [_data.at(y * _width + x)]; [None] is the [std::out_of_range] thrown. *)
Definition GetPixel (img : GraymapImage) (x y : Z) : option Z :=
  _data img !! Z.to_nat (wrap32 (y * _width img + x)).

(** [a.compare(b)]: zero exactly when the strings are equal. *)
Definition compare (a b : string) : Z :=
  match String.compare a b with
  | Eq => 0
  | Lt => -1
  | Gt => 1
  end.

Definition ne0 (z : Z) : bool := negb (z =? 0).
Definition eq0 (z : Z) : bool := z =? 0.

(** The test of line 95: none of the four magic numbers. *)
Definition bad_magic (formatBuffer : string) : bool :=
  ne0 (compare formatBuffer "P1") && ne0 (compare formatBuffer "P2")
  && ne0 (compare formatBuffer "P4") && ne0 (compare formatBuffer "P5").

(** The test of line 111. *)
Definition max_value_guard (formatBuffer : string) : bool :=
  ne0 (compare formatBuffer "P2") || ne0 (compare formatBuffer "P5").

(** Lines 103-105: one comment line. *)
Definition skip_comment (infile : istream) : istream :=
  let '(c, infile) := peek infile in
  match c with
  | Some c => if Ascii.eqb c hash then snd (getline infile EmptyString) else infile
  | None => infile
  end.

(** Lines 107-109: the dimensions, and the buffer resized to their
    (wrapped) product. [resize] keeps the elements already there and
    appends zeros. *)
Definition read_dimensions (stream : istream) (img : GraymapImage)
  : istream * GraymapImage :=
  let '(w, stream) := extract_unsigned UINT_MAX stream (_width img) in
  let '(h, stream) := extract_unsigned UINT_MAX stream (_height img) in
  (stream,
   mk_image (resize (Z.to_nat (wrap32 (w * h))) 0 (_data img)) w h (_max_value img)).

(** Line 113. *)
Definition read_max_value (stream : istream) (img : GraymapImage)
  : istream * GraymapImage :=
  let '(m, stream) := extract_unsigned USHRT_MAX stream (_max_value img) in
  (stream, mk_image (_data img) (_width img) (_height img) m).

(** [while (isspace(stream.peek())) stream.read(&dummy, 1)]. Every turn
    extracts a character, so one more turn than there are characters always
    reaches the exit. *)
Fixpoint skip_space_loop (fuel : nat) (stream : istream) : istream :=
  match fuel with
  | O => stream
  | S fuel' =>
      let '(c, stream) := peek stream in
      if isspace_int c then skip_space_loop fuel' (snd (read stream 0))
      else stream
  end.

Definition skip_space (stream : istream) : istream :=
  skip_space_loop (S (length (rdbuf stream))) stream.

Definition decoder_state : Type := istream * list Z.

(** Lines 127-128: [stream >> _data[idx]; _data[idx] *= 255]. *)
Definition p1_pixel (idx : Z) (s : decoder_state) : outcome decoder_state :=
  let '(stream, data) := s in
  match data !! Z.to_nat idx with
  | None => Undefined
  | Some old =>
      let '(v, stream) := extract_uchar stream old in
      let data := <[Z.to_nat idx := v]> data in
      Returned (stream, <[Z.to_nat idx := (v * 255) mod 256]> data)
  end.

(** Line 136: [stream >> _data[idx]]. *)
Definition p2_pixel (idx : Z) (s : decoder_state) : outcome decoder_state :=
  let '(stream, data) := s in
  match data !! Z.to_nat idx with
  | None => Undefined
  | Some old =>
      let '(v, stream) := extract_uchar stream old in
      Returned (stream, <[Z.to_nat idx := v]> data)
  end.

(** Line 160: [((temp & (0x1 << shift)) >> shift) * 255]. *)
Definition pixel_of_bit (temp shift : Z) : Z :=
  Z.shiftr (Z.land temp (Z.shiftl 1 shift)) shift * 255.

(** Lines 153-161: the eight pixels of one byte, leaving the loop at the
    first index outside the buffer. *)
Fixpoint p4_bits (n : nat) (k : Z) (i j width temp : Z) (data : list Z) : list Z :=
  match n with
  | O => data
  | S n' =>
      let index := wrap32 (i + k + j * width) in
      if Z.of_nat (length data) <=? index then data
      else
        let shift := 7 - k in
        p4_bits n' (k + 1) i j width temp
          (<[Z.to_nat index := pixel_of_bit temp shift]> data)
  end.

(** Lines 150-161. *)
Definition p4_byte (width j i : Z) (s : decoder_state) : outcome decoder_state :=
  let '(stream, data) := s in
  let '(temp, stream) := read stream 0 in
  Returned (stream, p4_bits 8 0 i j width temp data).

(** Line 173: [stream.read((char * ) &_data[idx], 1)]. *)
Definition p5_pixel (idx : Z) (s : decoder_state) : outcome decoder_state :=
  let '(stream, data) := s in
  match data !! Z.to_nat idx with
  | None => Undefined
  | Some old =>
      let '(v, stream) := read stream old in
      Returned (stream, <[Z.to_nat idx := v]> data)
  end.

(** The two loops of lines 125-126, 134-135 and 171-172 around a statement
    on [_data[i + j * _width]]. *)
Definition pixel_rows (width height : Z)
    (pixel : Z -> decoder_state -> outcome decoder_state) (s : decoder_state)
  : outcome decoder_state :=
  for_each height (fun j =>
    for_each width (fun i => pixel (wrap32 (i + wrap32 (j * width))))) s.

(** The two loops of lines 148-149. *)
Definition bit_rows (width height : Z) (s : decoder_state)
  : outcome decoder_state :=
  for_each height (fun j => for_each_8 width (p4_byte width j)) s.

(** Lines 121-175. *)
Definition decode (formatBuffer : string) (stream : istream) (img : GraymapImage)
  : outcome GraymapImage :=
  let width := _width img in
  let height := _height img in
  '(_, data) ←
    (if eq0 (compare formatBuffer "P1") then
       pixel_rows width height p1_pixel (stream, _data img)
     else if eq0 (compare formatBuffer "P2") then
       pixel_rows width height p2_pixel (stream, _data img)
     else if eq0 (compare formatBuffer "P4") then
       bit_rows width height (skip_space stream, _data img)
     else if eq0 (compare formatBuffer "P5") then
       pixel_rows width height p5_pixel (skip_space stream, _data img)
     else Returned (stream, _data img));
  Returned (mk_image data width height (_max_value img)).

(** Lines 121-178: decode, then [return true]. *)
Definition decode_and_return (formatBuffer : string) (stream : istream)
    (img : GraymapImage) : outcome (bool * GraymapImage) :=
  img ← decode formatBuffer stream img; Returned (true, img).

(** [GraymapImage::LoadImage], on the content of the file named. *)
Definition LoadImage (file : option (list ascii)) (img : GraymapImage)
  : outcome (bool * GraymapImage) :=
  let infile := ifstream file in
  let '(formatBuffer, infile) := getline infile EmptyString in
  if bad_magic formatBuffer then Returned (false, img)
  else
    let infile := skip_comment infile in
    let stream := insert_rdbuf infile in
    let '(stream, img) := read_dimensions stream img in
    if max_value_guard formatBuffer then
      let '(stream, img) := read_max_value stream img in
      (* We don't support 16-bit image data, yet. *)
      if 255 <? _max_value img then Returned (false, img)
      else decode_and_return formatBuffer stream img
    else decode_and_return formatBuffer stream img.

(** ** Files used in the statements *)

Definition text (s : string) : list ascii := list_ascii_of_string s.

(** The lines of a text file, each ended by a newline. *)
Definition lines (ls : list string) : list ascii :=
  concat (map (fun l => text l ++ [newline]) ls).

(** The value of a string of decimal digits. *)
Definition decimal_from (acc : Z) (ds : list ascii) : Z :=
  fold_left (fun a c => 10 * a + digit_value c) ds acc.

Definition decimal (ds : list ascii) : Z := decimal_from 0 ds.

Definition all_space (ws : list ascii) : bool := forallb isspace ws.

(** A decimal number: a digit at least, and digits only. *)
Definition number (ds : list ascii) : bool :=
  negb (is_nil ds) && forallb isdigit ds.

(** What follows a number does not go on with a digit. *)
Definition ends_number (tail : list ascii) : bool :=
  match tail with
  | c :: _ => negb (isdigit c)
  | [] => true
  end.

(** A header as [LoadImage] reads it: the magic number on a line of its
    own, one comment line or none, then width, height and a maximum value,
    each after whitespace (which a comment line or the magic number's
    newline may stand for before the width). *)
Record header : Type := mk_header {
  h_magic : string;
  h_comment : option (list ascii);
  h_ws1 : list ascii;
  h_width : list ascii;
  h_ws2 : list ascii;
  h_height : list ascii;
  h_ws3 : list ascii;
  h_max : list ascii
}.

Definition comment_text (c : option (list ascii)) : list ascii :=
  match c with
  | Some t => hash :: t ++ [newline]
  | None => []
  end.

Definition header_text (h : header) : list ascii :=
  text (h_magic h) ++ [newline] ++ comment_text (h_comment h)
  ++ h_ws1 h ++ h_width h ++ h_ws2 h ++ h_height h ++ h_ws3 h ++ h_max h.

Definition is_magic (m : string) : bool :=
  String.eqb m "P1" || String.eqb m "P2" || String.eqb m "P4" || String.eqb m "P5".

Definition one_line (t : list ascii) : bool :=
  forallb (fun c => negb (Ascii.eqb c newline)) t.

Definition well_formed (h : header) : bool :=
  is_magic (h_magic h)
  && match h_comment h with Some t => one_line t | None => true end
  && all_space (h_ws1 h) && number (h_width h)
  && negb (is_nil (h_ws2 h)) && all_space (h_ws2 h) && number (h_height h)
  && negb (is_nil (h_ws3 h)) && all_space (h_ws3 h) && number (h_max h)
  && (decimal (h_width h) <=? UINT_MAX) && (decimal (h_height h) <=? UINT_MAX).

(** The image as the header stage leaves it: the dimensions and the maximum
    value as parsed, the buffer resized. *)
Definition after_header (h : header) (img : GraymapImage) : GraymapImage :=
  mk_image
    (resize (Z.to_nat (wrap32 (decimal (h_width h) * decimal (h_height h)))) 0
       (_data img))
    (decimal (h_width h)) (decimal (h_height h))
    (Z.min (decimal (h_max h)) USHRT_MAX).

(** The stream as the header stage leaves it in front of [tail]. *)
Definition stream_at (h : header) (tail : list ascii) : istream :=
  mk_istream tail (is_nil tail) (USHRT_MAX <? decimal (h_max h)).

(** The characters that [read] can still deliver: none once the stream is
    not good. *)
Definition avail_bytes (s : istream) : list ascii :=
  if good s then rdbuf s else [].

Definition nonspace (c : ascii) : bool := negb (isspace c).

(** The characters that [>>] into an [unsigned char] can still deliver. *)
Definition avail_chars (s : istream) : list ascii :=
  if good s then List.filter nonspace (rdbuf s) else [].




(** The invariant of the P5 loops when the stream supplies every entry, at
    turn [p]: the first [p] entries are the first [p] bytes of [pix], the
    rest of [pix] is still to be read. *)
Definition verbatim (pix : list ascii) (N p : nat) (s : decoder_state) : Prop :=
  avail_bytes s.1 = drop p pix
  /\ length s.2 = N
  /\ forall k, (k < p)%nat -> s.2 !! k = uchar_of <$> pix !! k.

(** The invariant of the P4 loops in front of byte [b] when the width is a
    multiple of 8 and the stream supplies every byte: entry [m] below [8 * b]
    is bit [7 - m mod 8] of byte [m / 8] of [pix], times 255, and the rest
    of [pix] is still to be read. *)
Definition bitmap (pix : list ascii) (N b : nat) (s : decoder_state) : Prop :=
  avail_bytes s.1 = drop b pix
  /\ length s.2 = N
  /\ forall m, (m < 8 * b)%nat ->
       s.2 !! m
       = (fun byte => pixel_of_bit (uchar_of byte) (7 - Z.of_nat m `mod` 8))
         <$> pix !! Z.to_nat (Z.of_nat m `div` 8).


(** A statement on [_data[idx]] as the three loops of [pixel_rows] have it:
    it returns, keeping the size of the buffer, when [idx] is inside the
    buffer, and is an out-of-range subscript otherwise. *)
Definition subscripts (pixel : Z -> decoder_state -> outcome decoder_state) : Prop :=
  forall idx st d,
    match d !! Z.to_nat idx with
    | Some _ => exists s', pixel idx (st, d) = Returned s' /\ length s'.2 = length d
    | None => pixel idx (st, d) = Undefined
    end.

(** A statement that reads one value into [_data[p]], as the stream calls
    of lines 127-128, 136 and 173 do: when the stream can still deliver a
    character [c] the entry becomes [f c], otherwise it becomes [g] of what
    it held. *)
Definition reads (avail : istream -> list ascii) (f : ascii -> Z) (g : Z -> Z)
    (pixel : Z -> decoder_state -> outcome decoder_state) : Prop :=
  forall (p : nat) st d old,
    d !! p = Some old ->
    match avail st with
    | c :: r =>
        exists st', pixel (Z.of_nat p) (st, d) = Returned (st', <[p := f c]> d)
                    /\ avail st' = r
    | [] =>
        exists st', pixel (Z.of_nat p) (st, d) = Returned (st', <[p := g old]> d)
                    /\ avail st' = []
    end.

(** The invariant of the loops that fill one entry per turn, in full, at
    turn [p]: the characters of [src] from the [p]-th on are still to be
    read; an entry below [p] is [f] of the character read for it, or [g] of
    what the buffer [d0] held when no character was left; the entries from
    [p] on are those of [d0]. *)
Definition filled (avail : istream -> list ascii) (f : ascii -> Z) (g : Z -> Z)
    (src : list ascii) (d0 : list Z) (p : nat) (s : decoder_state) : Prop :=
  avail s.1 = drop p src
  /\ length s.2 = length d0
  /\ forall k,
       s.2 !! k
       = if decide (k < p)%nat
         then match src !! k with
              | Some c => Some (f c)
              | None => g <$> d0 !! k
              end
         else d0 !! k.

(** What line 128 makes of an entry. *)
Definition times_255 (v : Z) : Z := (v * 255) mod 256.

(** The bytes that the loop of line 149 reads for one row. *)
Definition bytes_per_row (width : Z) : Z := (width + 7) / 8.

(** The pixel that bit [7 - x mod 8] of a byte stands for. *)
Definition bit_pixel (x : Z) (byte : ascii) : Z :=
  if Z.testbit (uchar_of byte) (7 - x mod 8) then 255 else 0.

(** The invariant of the P4 loops in front of byte [k] of row [j], for any
    width, when the stream supplies every byte: the pixels of the rows above
    and the first [8 * k] pixels of this row are the bits of their bytes, the
    bytes from [j * c + k] on are still to be read. *)
Definition aligned (pix : list ascii) (W c : Z) (N j k : nat)
    (s : decoder_state) : Prop :=
  avail_bytes s.1 = drop (j * Z.to_nat c + k) pix
  /\ length s.2 = N
  /\ forall x y, 0 <= x < W -> 0 <= y ->
       (y < Z.of_nat j \/ (y = Z.of_nat j /\ x < 8 * Z.of_nat k)) ->
       s.2 !! Z.to_nat (y * W + x)
       = bit_pixel x <$> pix !! Z.to_nat (y * c + x / 8).

(** The characters that can start a number for [num_get]. *)
Definition starts_number (c : ascii) : bool :=
  isdigit c || Ascii.eqb c "+" || Ascii.eqb c "-".

(** What follows the magic number's line and the comment line, if any, is
    not taken for a comment line itself: behind a comment line anything
    goes, without one the first character is not a ['#']. *)
Definition starts_data (cmt : option (list ascii)) (rest : list ascii) : bool :=
  match cmt, rest with
  | None, c :: _ => negb (Ascii.eqb c hash)
  | _, _ => true
  end.

(** A pixel of a bitmap. *)
Definition bilevel (v : Z) : Prop := v = 0 \/ v = 255.

(** ** The stream library *)

Section Streams.

Lemma isspace_not_digit c : isspace c = true -> isdigit c = false.
Proof.
  unfold isspace, isdigit. intros H.
  apply orb_true_iff in H as [H | H].
  - apply Z.eqb_eq in H. rewrite H. reflexivity.
  - apply andb_true_iff in H as [_ H]. apply Z.leb_le in H.
    apply andb_false_iff. left. apply Z.leb_gt. lia.
Qed.

Lemma isdigit_not_space c : isdigit c = true -> isspace c = false.
Proof.
  intros H. destruct (isspace c) eqn:E; [|done].
  apply isspace_not_digit in E. congruence.
Qed.

Lemma skipws_app ws l : all_space ws = true -> skipws (ws ++ l) = skipws l.
Proof.
  induction ws as [|c ws IH]; simpl; [done|].
  intros H. apply andb_true_iff in H as [Hc Hws]. rewrite Hc. auto.
Qed.

Lemma skipws_head c l : isspace c = false -> skipws (c :: l) = c :: l.
Proof. intros H. simpl. by rewrite H. Qed.

Lemma scan_digits_app ds tail acc n :
  forallb isdigit ds = true -> ends_number tail = true ->
  scan_digits acc n (ds ++ tail) = (decimal_from acc ds, (n + length ds)%nat, tail).
Proof.
  revert acc n. induction ds as [|c ds IH]; intros acc n Hds Ht.
  - rewrite Nat.add_0_r. destruct tail as [|c tail]; [done|].
    cbn [ends_number] in Ht. apply negb_true_iff in Ht.
    cbn [app scan_digits]. by rewrite Ht.
  - cbn [forallb] in Hds. apply andb_true_iff in Hds as [Hc Hds].
    cbn [app scan_digits]. rewrite Hc.
    rewrite IH by done. cbn [decimal_from fold_left length]. f_equal. f_equal. lia.
Qed.

Lemma decimal_from_nonneg ds acc :
  forallb isdigit ds = true -> 0 <= acc -> 0 <= decimal_from acc ds.
Proof.
  revert acc. induction ds as [|c ds IH]; intros acc Hds Hacc; simpl; [done|].
  simpl in Hds. apply andb_true_iff in Hds as [Hc Hds].
  apply IH; [done|]. unfold isdigit in Hc. unfold digit_value.
  apply andb_true_iff in Hc as [Hc _]. apply Z.leb_le in Hc. lia.
Qed.

Lemma decimal_nonneg ds : number ds = true -> 0 <= decimal ds.
Proof.
  intros H. apply andb_true_iff in H as [_ H].
  by apply decimal_from_nonneg.
Qed.

(** A number in the input, in range for the type: the extraction yields its
    value and stops right after its last digit. *)
Lemma num_get_unsigned_number max ds tail :
  number ds = true -> ends_number tail = true ->
  num_get_unsigned max (ds ++ tail)
  = (Z.min (decimal ds) max, max <? decimal ds, is_nil tail, tail).
Proof.
  intros Hn Ht. pose proof (decimal_nonneg ds Hn) as Hpos.
  apply andb_true_iff in Hn as [Hne Hds].
  destruct ds as [|c ds]; [done|]. clear Hne.
  unfold num_get_unsigned.
  assert (Hc : isdigit c = true) by (simpl in Hds; by apply andb_true_iff in Hds as [? _]).
  assert (Hm : Ascii.eqb c "-" = false).
  { destruct (Ascii.eqb_spec c "-"%char) as [->|]; [|done]. discriminate Hc. }
  assert (Hp : Ascii.eqb c "+" = false).
  { destruct (Ascii.eqb_spec c "+"%char) as [->|]; [|done]. discriminate Hc. }
  cbn [app]. rewrite Hm, Hp.
  change (c :: (ds ++ tail)) with ((c :: ds) ++ tail).
  rewrite scan_digits_app by done.
  change (Nat.eqb (0 + length (c :: ds)) 0) with false. cbv iota.
  fold (decimal (c :: ds)).
  destruct (Z.ltb_spec max (decimal (c :: ds))).
  - by rewrite Z.min_r by lia.
  - by rewrite Z.min_l by lia.
Qed.

Lemma extract_unsigned_number max ws ds tail old :
  all_space ws = true -> number ds = true -> ends_number tail = true ->
  extract_unsigned max (mk_istream (ws ++ ds ++ tail) false false) old
  = (Z.min (decimal ds) max, mk_istream tail (is_nil tail) (max <? decimal ds)).
Proof.
  intros Hws Hn Ht. unfold extract_unsigned, sentry. simpl.
  rewrite skipws_app by done.
  assert (Hd : exists c ds', ds = c :: ds' /\ isdigit c = true).
  { apply andb_true_iff in Hn as [Hne Hds]. destruct ds as [|c ds']; [done|].
    exists c, ds'. split; [done|]. simpl in Hds. by apply andb_true_iff in Hds as [? _]. }
  destruct Hd as (c & ds' & -> & Hc).
  change ((c :: ds') ++ tail) with (c :: (ds' ++ tail)).
  rewrite skipws_head by (by apply isdigit_not_space).
  unfold with_rdbuf. simpl rdbuf.
  change (c :: (ds' ++ tail)) with ((c :: ds') ++ tail).
  rewrite num_get_unsigned_number by done. reflexivity.
Qed.

(** Nothing is extracted from a stream that is not good, and it stays so. *)
Lemma extract_unsigned_not_good max s old :
  good s = false -> extract_unsigned max s old = (old, setstate_fail s).
Proof. intros H. unfold extract_unsigned, sentry. by rewrite H. Qed.

Lemma split_line_app t rest :
  one_line t = true -> split_line (t ++ newline :: rest) = (t, Some rest).
Proof.
  induction t as [|c t IH]; simpl; [done|].
  intros H. apply andb_true_iff in H as [Hc Ht]. apply negb_true_iff in Hc.
  rewrite Hc, IH by done. reflexivity.
Qed.

End Streams.

(** ** The header stage *)

Section Header.

Lemma string_compare_refl a : String.compare a a = Eq.
Proof.
  induction a as [|c a IH]; [done|]. cbn [String.compare].
  unfold Ascii.compare. by rewrite N.compare_refl.
Qed.

Lemma compare_eq0 a b : eq0 (compare a b) = true <-> a = b.
Proof.
  unfold eq0, compare. split.
  - intros H. apply String.compare_eq_iff. by destruct (String.compare a b).
  - intros ->. by rewrite string_compare_refl.
Qed.

Lemma compare_ne0 a b : ne0 (compare a b) = true <-> a <> b.
Proof.
  unfold ne0. rewrite negb_true_iff, <- not_true_iff_false.
  fold (eq0 (compare a b)). by rewrite compare_eq0.
Qed.

Lemma compare_ne0_false a b : ne0 (compare a b) = false <-> a = b.
Proof.
  unfold ne0. rewrite negb_false_iff. fold (eq0 (compare a b)).
  apply compare_eq0.
Qed.

(** No string equals both "P2" and "P5": the test of line 111 always
    holds. *)
Lemma max_value_guard_true formatBuffer : max_value_guard formatBuffer = true.
Proof.
  unfold max_value_guard.
  destruct (ne0 (compare formatBuffer "P2")) eqn:E2; [done|].
  apply compare_ne0_false in E2. subst. reflexivity.
Qed.

Lemma bad_magic_iff formatBuffer :
  bad_magic formatBuffer = true
  <-> formatBuffer <> "P1"%string /\ formatBuffer <> "P2"%string
      /\ formatBuffer <> "P4"%string /\ formatBuffer <> "P5"%string.
Proof.
  unfold bad_magic. rewrite !andb_true_iff, !compare_ne0. tauto.
Qed.

Lemma is_magic_cases m :
  is_magic m = true ->
  m = "P1"%string \/ m = "P2"%string \/ m = "P4"%string \/ m = "P5"%string.
Proof.
  unfold is_magic. rewrite !orb_true_iff, !String.eqb_eq. tauto.
Qed.

Lemma getline_magic m rest :
  is_magic m = true ->
  getline (ifstream (Some (text m ++ newline :: rest))) EmptyString
  = (m, mk_istream rest false false).
Proof.
  intros H. destruct (is_magic_cases m H) as [-> | [-> | [-> | ->]]]; reflexivity.
Qed.

Lemma is_magic_not_bad m : is_magic m = true -> bad_magic m = false.
Proof.
  intros H. destruct (is_magic_cases m H) as [-> | [-> | [-> | ->]]]; reflexivity.
Qed.

(** The width is the first thing after the magic number's line when there
    is no comment: it never starts with a ['#']. *)
Lemma number_head ws ds r :
  all_space ws = true -> number ds = true ->
  exists c l, ws ++ ds ++ r = c :: l /\ Ascii.eqb c hash = false.
Proof.
  intros Hws Hn. destruct ws as [|c ws].
  - apply andb_true_iff in Hn as [Hne Hds]. destruct ds as [|c ds]; [done|].
    exists c, (ds ++ r). split; [done|]. cbn [forallb] in Hds.
    apply andb_true_iff in Hds as [Hc _].
    destruct (Ascii.eqb_spec c hash) as [->|]; [discriminate Hc|done].
  - exists c, (ws ++ ds ++ r). split; [done|]. cbn [all_space forallb] in Hws.
    apply andb_true_iff in Hws as [Hc _].
    destruct (Ascii.eqb_spec c hash) as [->|]; [discriminate Hc|done].
Qed.

Lemma skip_comment_header cmt ws ds r :
  match cmt with Some t => one_line t | None => true end = true ->
  all_space ws = true -> number ds = true ->
  skip_comment (mk_istream (comment_text cmt ++ ws ++ ds ++ r) false false)
  = mk_istream (ws ++ ds ++ r) false false.
Proof.
  intros Hc Hws Hn. destruct cmt as [t|].
  - unfold skip_comment, peek, sentry, getline, sentry. cbn.
    rewrite <- app_assoc. cbn [app]. rewrite split_line_app by done. reflexivity.
  - destruct (number_head ws ds r Hws Hn) as (c & l & E & Hh).
    cbn [comment_text app]. rewrite E.
    unfold skip_comment, peek, sentry. cbn. by rewrite Hh.
Qed.

Lemma insert_rdbuf_header ws ds r :
  number ds = true ->
  insert_rdbuf (mk_istream (ws ++ ds ++ r) false false)
  = mk_istream (ws ++ ds ++ r) false false.
Proof.
  intros Hn. unfold insert_rdbuf. cbn [rdbuf]. f_equal.
  apply andb_true_iff in Hn as [Hne _].
  destruct ws; [|done]. destruct ds; done.
Qed.

Lemma ends_number_space (ws r : list ascii) :
  negb (is_nil ws) = true -> all_space ws = true -> ends_number (ws ++ r) = true.
Proof.
  destruct ws as [|c ws]; [done|]. intros _ H. cbn [all_space forallb] in H.
  apply andb_true_iff in H as [Hc _]. cbn. by rewrite isspace_not_digit.
Qed.

Lemma is_nil_space (ws r : list ascii) : negb (is_nil ws) = true -> is_nil (ws ++ r) = false.
Proof. by destruct ws. Qed.

(** The whole of [LoadImage] up to the test of the maximum value, on a
    well-formed header. *)
Lemma LoadImage_header h tail img :
  well_formed h = true -> ends_number tail = true ->
  LoadImage (Some (header_text h ++ tail)) img
  = if 255 <? decimal (h_max h) then Returned (false, after_header h img)
    else decode_and_return (h_magic h) (stream_at h tail) (after_header h img).
Proof.
  intros Hwf Ht. unfold well_formed in Hwf.
  repeat (apply andb_true_iff in Hwf as [Hwf ?]).
  destruct h as [m cmt ws1 dW ws2 dH ws3 dM]. cbn [h_magic h_comment h_ws1 h_width
    h_ws2 h_height h_ws3 h_max] in *.
  unfold LoadImage, header_text.
  cbn [h_magic h_comment h_ws1 h_width h_ws2 h_height h_ws3 h_max].
  rewrite <- !app_assoc. cbn [app].
  rewrite getline_magic, is_magic_not_bad by done.
  rewrite skip_comment_header, insert_rdbuf_header by done.
  unfold read_dimensions.
  rewrite extract_unsigned_number by (done || by apply ends_number_space).
  rewrite is_nil_space by done.
  rewrite Z.min_l by (by apply Z.leb_le).
  replace (UINT_MAX <? decimal dW) with false by (symmetry; apply Z.ltb_ge; by apply Z.leb_le).
  rewrite extract_unsigned_number by (done || by apply ends_number_space).
  rewrite is_nil_space by done.
  rewrite Z.min_l by (by apply Z.leb_le).
  replace (UINT_MAX <? decimal dH) with false by (symmetry; apply Z.ltb_ge; by apply Z.leb_le).
  rewrite max_value_guard_true. unfold read_max_value. cbn [_max_value _data _width _height].
  rewrite extract_unsigned_number by done.
  cbn [_max_value]. unfold after_header, stream_at.
  cbn [h_magic h_comment h_ws1 h_width h_ws2 h_height h_ws3 h_max _data _max_value].
  replace (255 <? Z.min (decimal dM) USHRT_MAX) with (255 <? decimal dM); [done|].
  unfold USHRT_MAX. destruct (Z.ltb_spec 255 (decimal dM)); symmetry;
    [apply Z.ltb_lt | apply Z.ltb_ge]; lia.
Qed.

End Header.

(** ** Loops *)

Section Loops.

Context {S : Type}.

(** An invariant indexed by the number of turns done is carried through a
    loop whose body returns on every turn. *)
Lemma for_loop_invariant (I : nat -> S -> Prop) step n lo
    (body : Z -> S -> outcome S) s :
  I 0%nat s ->
  (forall k s, (k < n)%nat -> I k s ->
     exists s', body (lo + step * Z.of_nat k) s = Returned s' /\ I (Datatypes.S k) s') ->
  exists s', for_loop step n lo body s = Returned s' /\ I n s'.
Proof.
  revert I lo s. induction n as [|n IH]; intros I lo s H0 Hstep.
  - by exists s.
  - destruct (Hstep 0%nat s) as (s1 & E1 & I1); [lia|done|].
    rewrite Z.mul_0_r, Z.add_0_r in E1. cbn [for_loop]. rewrite E1.
    destruct (IH (fun k => I (Datatypes.S k)) (lo + step) s1) as (s' & E & I');
      [done| |by exists s'].
    intros k s2 Hk HI. destruct (Hstep (Datatypes.S k) s2) as (s3 & E3 & I3); [lia|done|].
    exists s3. split; [|done]. rewrite <- E3. f_equal. lia.
Qed.

(** The same for a loop over the rows around a loop over the columns, the
    invariant being indexed by the turns of the inner body done so far. *)
Lemma rows_invariant (I : nat -> S -> Prop) step rows cols
    (body : Z -> Z -> S -> outcome S) s :
  I 0%nat s ->
  (forall j k s, (j < rows)%nat -> (k < cols)%nat -> I (j * cols + k)%nat s ->
     exists s', body (Z.of_nat j) (step * Z.of_nat k) s = Returned s'
                /\ I (j * cols + k + 1)%nat s') ->
  exists s', for_loop 1 rows 0 (fun j => for_loop step cols 0 (body j)) s = Returned s'
             /\ I (rows * cols)%nat s'.
Proof.
  intros H0 Hstep.
  apply (for_loop_invariant (fun j => I (j * cols)%nat)); [done|].
  intros j s1 Hj HI. replace (0 + 1 * Z.of_nat j) with (Z.of_nat j) by lia.
  destruct (for_loop_invariant (fun k => I (j * cols + k)%nat) step cols 0 (body (Z.of_nat j)) s1)
    as (s' & E & I').
  - by rewrite Nat.add_0_r.
  - intros k s2 Hk HI2. destruct (Hstep j k s2 Hj Hk HI2) as (s3 & E3 & I3).
    exists s3. split; [done|]. by replace (j * cols + Datatypes.S k)%nat with (j * cols + k + 1)%nat by lia.
  - exists s'. split; [done|]. by replace (Datatypes.S j * cols)%nat with (j * cols + cols)%nat by lia.
Qed.

End Loops.

(** ** Reading the pixel data *)

Section Reads.

Lemma good_with_rdbuf s b : good (with_rdbuf s b) = good s.
Proof. done. Qed.

Lemma read_avail_cons s c r old :
  avail_bytes s = c :: r ->
  exists s', read s old = (uchar_of c, s') /\ avail_bytes s' = r.
Proof.
  unfold avail_bytes, read, sentry. destruct (good s) eqn:Hg; [|done].
  intros ->. exists (with_rdbuf s r). split; [done|].
  by rewrite good_with_rdbuf, Hg.
Qed.

Lemma read_avail_nil s old :
  avail_bytes s = [] ->
  exists s', read s old = (old, s') /\ avail_bytes s' = [].
Proof.
  unfold avail_bytes, read, sentry. destruct (good s) eqn:Hg.
  - intros ->. by eexists.
  - intros _. eexists. split; [done|].
    unfold good, setstate_fail. cbn. by rewrite andb_false_r.
Qed.

Lemma filter_nonspace_cons l c r :
  List.filter nonspace l = c :: r ->
  exists l', skipws l = c :: l' /\ List.filter nonspace l' = r.
Proof.
  induction l as [|a l IH]; [done|]. cbn [List.filter skipws]. unfold nonspace at 1.
  destruct (isspace a); cbn [negb]; [done|].
  intros [= -> <-]. by exists l.
Qed.

Lemma filter_nonspace_nil l : List.filter nonspace l = [] -> skipws l = [].
Proof.
  induction l as [|a l IH]; [done|]. cbn [List.filter skipws]. unfold nonspace at 1.
  by destruct (isspace a).
Qed.

Lemma extract_uchar_avail_cons s c r old :
  avail_chars s = c :: r ->
  exists s', extract_uchar s old = (uchar_of c, s') /\ avail_chars s' = r.
Proof.
  unfold avail_chars, extract_uchar, sentry. destruct (good s) eqn:Hg; [|done].
  intros H. destruct (filter_nonspace_cons _ _ _ H) as (l' & -> & Hl').
  cbn [rdbuf with_rdbuf]. exists (with_rdbuf s l'). split; [done|].
  by rewrite good_with_rdbuf, Hg.
Qed.

Lemma extract_uchar_avail_nil s old :
  avail_chars s = [] ->
  exists s', extract_uchar s old = (old, s') /\ avail_chars s' = [].
Proof.
  unfold avail_chars, extract_uchar, sentry. destruct (good s) eqn:Hg.
  - intros H. rewrite (filter_nonspace_nil _ H). by eexists.
  - intros _. eexists. split; [done|].
    unfold good, setstate_fail. cbn. by rewrite andb_false_r.
Qed.

(** The whitespace loop in front of the binary data leaves exactly what
    follows the whitespace to be read. *)
Lemma skip_space_loop_good l extra :
  exists s', skip_space_loop (Datatypes.S (length l) + extra) (mk_istream l false false) = s'
             /\ avail_bytes s' = skipws l.
Proof.
  induction l as [|c l IH].
  - by eexists.
  - cbn [length Nat.add skip_space_loop]. unfold peek, sentry.
    cbn [good eofbit failbit negb andb rdbuf isspace_int].
    cbn [skipws]. destruct (isspace c) eqn:Hc.
    + unfold read, sentry. cbn [good eofbit failbit negb andb rdbuf with_rdbuf snd].
      apply IH.
    + by eexists.
Qed.

Lemma skip_space_avail tail :
  avail_bytes (skip_space (mk_istream tail (is_nil tail) false)) = skipws tail.
Proof.
  destruct tail as [|c tail]; [done|].
  unfold skip_space. cbn [rdbuf is_nil].
  destruct (skip_space_loop_good (c :: tail) 0) as (s' & E & H).
  rewrite Nat.add_0_r in E. by rewrite E.
Qed.

End Reads.

(** ** The pixel loops *)

Section Pixels.

Lemma wrap32_small z : 0 <= z < 2 ^ 32 -> wrap32 z = z.
Proof. intros H. unfold wrap32. by apply Z.mod_small. Qed.


(** Inside the image the index of line 127 is the row-major one. *)
Lemma row_major_index W H i j :
  0 <= i < W -> 0 <= j < H -> W * H < 2 ^ 32 ->
  wrap32 (i + wrap32 (j * W)) = j * W + i.
Proof.
  intros Hi Hj Hwh. assert (j * W + i < W * H) by nia.
  rewrite (wrap32_small (j * W)) by nia. rewrite wrap32_small by nia. lia.
Qed.

(** The two loops of the formats that fill one entry per turn carry an
    invariant indexed by the row-major position. *)
Lemma pixel_rows_invariant (I : nat -> decoder_state -> Prop)
    (pixel : Z -> decoder_state -> outcome decoder_state) W H s :
  0 <= W -> 0 <= H -> W * H < 2 ^ 32 ->
  I 0%nat s ->
  (forall p s, (p < Z.to_nat (W * H))%nat -> I p s ->
     exists s', pixel (Z.of_nat p) s = Returned s' /\ I (p + 1)%nat s') ->
  exists s', pixel_rows W H pixel s = Returned s' /\ I (Z.to_nat (W * H)) s'.
Proof.
  intros HW HH Hwh H0 Hstep. unfold pixel_rows, for_each.
  rewrite Z2Nat.inj_mul, Nat.mul_comm by done.
  apply (rows_invariant I 1 (Z.to_nat H) (Z.to_nat W)
           (fun j i => pixel (wrap32 (i + wrap32 (j * W))))); [done|].
  intros j k s1 Hj Hk HI.
  rewrite row_major_index with (H := H) by lia.
  replace (Z.of_nat j * W + 1 * Z.of_nat k) with (Z.of_nat (j * Z.to_nat W + k)) by nia.
  apply Hstep; [nia|done].
Qed.




(** *** One entry per turn: what the stream cannot supply stays 0 *)




(** *** The bits of P4 *)

Lemma p4_bits_length n k i j W temp d :
  length (p4_bits n k i j W temp d) = length d.
Proof.
  revert k d. induction n as [|n IH]; intros k d; [done|]. cbn [p4_bits].
  destruct (Z.of_nat (length d) <=? wrap32 (i + k + j * W)); [done|].
  by rewrite IH, length_insert.
Qed.




Lemma p5_pixel_verbatim pix N p s :
  (p < N)%nat -> (N <= length pix)%nat -> verbatim pix N p s ->
  exists s', p5_pixel (Z.of_nat p) s = Returned s' /\ verbatim pix N (p + 1) s'.
Proof.
  destruct s as [st d]. intros Hp HN (Hav & Hlen & Hd). cbn [fst snd] in *.
  unfold p5_pixel. rewrite Nat2Z.id.
  destruct (lookup_lt_is_Some_2 d p) as [old Hold]; [lia|]. rewrite Hold.
  destruct (lookup_lt_is_Some_2 pix p) as [c Hc]; [lia|].
  rewrite (drop_S _ _ _ Hc) in Hav.
  destruct (read_avail_cons st c _ old Hav) as (st' & -> & Hav').
  eexists. split; [done|]. repeat split; cbn [fst snd].
  - rewrite Hav'. f_equal. lia.
  - by rewrite length_insert.
  - intros k Hk. destruct (decide (k = p)) as [->|Hne].
    + rewrite list_lookup_insert_eq by lia. by rewrite Hc.
    + rewrite list_lookup_insert_ne by done. apply Hd. lia.
Qed.



End Pixels.

(** ** The bit loop of P4 *)

Section Bits.

Lemma pixel_of_bit_testbit temp shift :
  0 <= shift ->
  pixel_of_bit temp shift = if Z.testbit temp shift then 255 else 0.
Proof.
  intros Hs. unfold pixel_of_bit.
  rewrite Z.shiftr_land, Z.shiftr_shiftl_l by lia.
  rewrite Z.sub_diag, Z.shiftl_0_r.
  change 1 with (Z.ones 1). rewrite Z.land_ones by lia.
  change (2 ^ 1) with 2. rewrite <- Z.bit0_mod, Z.shiftr_spec by lia.
  rewrite Z.add_0_l. by destruct (Z.testbit temp shift).
Qed.

(** While the eight indices of a byte stay inside the buffer, the loop
    writes the bits from the highest down at consecutive entries and
    touches nothing else. *)
Lemma p4_bits_lookup n k i j W temp d m :
  0 <= i + j * W -> 0 <= k ->
  i + j * W + k + Z.of_nat n <= Z.of_nat (length d) ->
  i + j * W + k + Z.of_nat n <= 2 ^ 32 ->
  p4_bits n k i j W temp d !! m
  = if decide (i + j * W + k <= Z.of_nat m < i + j * W + k + Z.of_nat n)
    then Some (pixel_of_bit temp (7 - (Z.of_nat m - (i + j * W))))
    else d !! m.
Proof.
  revert k d. induction n as [|n IH]; intros k d Hb Hk Hlen Hw.
  - cbn [p4_bits]. case_decide; [lia|done].
  - cbn [p4_bits]. replace (i + k + j * W) with (i + j * W + k) by lia.
    rewrite wrap32_small by lia.
    destruct (Z.leb_spec (Z.of_nat (length d)) (i + j * W + k)) as [|_]; [lia|].
    fold (pixel_of_bit temp (7 - k)).
    rewrite IH by (rewrite ?length_insert; lia).
    destruct (decide (Z.of_nat m = i + j * W + k)) as [E|E].
    + rewrite decide_False by lia. rewrite decide_True by lia.
      replace (Z.to_nat (i + j * W + k)) with m by lia.
      rewrite list_lookup_insert_eq by lia. do 2 f_equal. lia.
    + rewrite list_lookup_insert_ne by lia.
      case_decide; case_decide; done || lia.
Qed.

Lemma p4_byte_bitmap pix W c N b j k s :
  W = 8 * c -> 0 <= c -> (Z.of_nat b = Z.of_nat j * c + Z.of_nat k) ->
  8 * Z.of_nat b + 8 <= Z.of_nat N -> Z.of_nat N <= 2 ^ 32 ->
  (b < length pix)%nat ->
  bitmap pix N b s ->
  exists s', p4_byte W (Z.of_nat j) (8 * Z.of_nat k) s = Returned s'
             /\ bitmap pix N (b + 1) s'.
Proof.
  destruct s as [st d]. intros -> Hc Hb HN Hw Hpix (Hav & Hlen & Hd).
  cbn [fst snd] in *. unfold p4_byte.
  destruct (lookup_lt_is_Some_2 pix b) as [byte Hbyte]; [lia|].
  rewrite (drop_S _ _ _ Hbyte) in Hav.
  destruct (read_avail_cons st byte _ 0 Hav) as (st' & -> & Hav').
  eexists. split; [done|]. repeat split; cbn [fst snd].
  - rewrite Hav'. f_equal. lia.
  - by rewrite p4_bits_length.
  - intros m Hm. rewrite p4_bits_lookup by nia.
    assert (Hbase : 8 * Z.of_nat k + Z.of_nat j * (8 * c) = 8 * Z.of_nat b) by lia.
    rewrite Hbase. case_decide as Hin.
    + assert (Z.of_nat m `div` 8 = Z.of_nat b) as Hq
        by (symmetry; apply (Z.div_unique _ _ _ (Z.of_nat m - 8 * Z.of_nat b)); lia).
      assert (Z.of_nat m `mod` 8 = Z.of_nat m - 8 * Z.of_nat b) as Hr
        by (symmetry; apply (Z.mod_unique _ _ (Z.of_nat b)); lia).
      rewrite Hq, Nat2Z.id, Hbyte, Hr. done.
    + apply Hd. lia.
Qed.

Lemma bit_rows_bitmap pix W H c s :
  W = 8 * c -> 0 <= c -> 0 <= H -> W <= 2 ^ 32 - 8 -> W * H <= 2 ^ 32 ->
  H * c <= Z.of_nat (length pix) ->
  bitmap pix (Z.to_nat (W * H)) 0 s ->
  exists s', bit_rows W H s = Returned s'
             /\ bitmap pix (Z.to_nat (W * H)) (Z.to_nat H * Z.to_nat c) s'.
Proof.
  intros HW Hc HH H8 Hwh Hpix H0. unfold bit_rows, for_each, for_each_8.
  replace (2 ^ 32 - 8 <? W) with false by (symmetry; apply Z.ltb_ge; lia).
  replace ((W + 7) / 8) with c
    by (apply (Z.div_unique _ _ _ 7); lia).
  apply (rows_invariant (bitmap pix (Z.to_nat (W * H))) 8 (Z.to_nat H) (Z.to_nat c)
           (fun j i => p4_byte W j i)); [done|].
  intros j k s1 Hj Hk HI.
  apply (p4_byte_bitmap pix W c); try done; nia.
Qed.

End Bits.

(** ** What every load preserves *)

Section Preservation.

(** A property that every turn of the body preserves holds when the loop
    returns. *)
Lemma for_loop_preserves {S : Type} (P : S -> Prop) step n lo
    (body : Z -> S -> outcome S) s s' :
  (forall i s s', P s -> body i s = Returned s' -> P s') ->
  P s -> for_loop step n lo body s = Returned s' -> P s'.
Proof.
  intros Hbody. revert lo s. induction n as [|n IH]; intros lo s HP; cbn [for_loop].
  - by intros [= <-].
  - destruct (body lo s) as [s1| |] eqn:E; [|done..]. cbn.
    apply IH. by apply (Hbody lo s).
Qed.

Lemma p1_pixel_length idx s s' :
  p1_pixel idx s = Returned s' -> length s'.2 = length s.2.
Proof.
  destruct s as [st d]. unfold p1_pixel. destruct (d !! Z.to_nat idx); [|done].
  destruct (extract_uchar st z). intros [= <-]. cbn. by rewrite !length_insert.
Qed.

Lemma p2_pixel_length idx s s' :
  p2_pixel idx s = Returned s' -> length s'.2 = length s.2.
Proof.
  destruct s as [st d]. unfold p2_pixel. destruct (d !! Z.to_nat idx); [|done].
  destruct (extract_uchar st z). intros [= <-]. cbn. by rewrite length_insert.
Qed.

Lemma p5_pixel_length idx s s' :
  p5_pixel idx s = Returned s' -> length s'.2 = length s.2.
Proof.
  destruct s as [st d]. unfold p5_pixel. destruct (d !! Z.to_nat idx); [|done].
  destruct (read st z). intros [= <-]. cbn. by rewrite length_insert.
Qed.

Lemma p4_byte_length W j i s s' :
  p4_byte W j i s = Returned s' -> length s'.2 = length s.2.
Proof.
  destruct s as [st d]. unfold p4_byte. destruct (read st 0) as [z i0].
  intros E. assert (s' = (i0, p4_bits 8 0 i j W z d)) as -> by congruence.
  cbn [snd]. apply p4_bits_length.
Qed.

Lemma pixel_rows_length W H pixel s s' :
  (forall idx s s', pixel idx s = Returned s' -> length s'.2 = length s.2) ->
  pixel_rows W H pixel s = Returned s' -> length s'.2 = length s.2.
Proof.
  intros Hpixel. unfold pixel_rows, for_each.
  apply (for_loop_preserves (fun s' : decoder_state => length s'.2 = length s.2)); [|done].
  intros j s1 s2 H1.
  apply (for_loop_preserves (fun s' : decoder_state => length s'.2 = length s.2)); [|done].
  intros i s3 s4 H3 E. rewrite <- H3. by apply (Hpixel _ _ _ E).
Qed.

Lemma bit_rows_length W H s s' :
  bit_rows W H s = Returned s' -> length s'.2 = length s.2.
Proof.
  unfold bit_rows, for_each.
  apply (for_loop_preserves (fun s' : decoder_state => length s'.2 = length s.2)); [|done].
  intros j s1 s2 H1. unfold for_each_8. destruct (2 ^ 32 - 8 <? W); [done|].
  apply (for_loop_preserves (fun s' : decoder_state => length s'.2 = length s.2)); [|done].
  intros i s3 s4 H3 E. rewrite <- H3. by apply (p4_byte_length _ _ _ _ _ E).
Qed.

(** The decoders write pixels only: the dimensions, the max-value and the
    size of the buffer are those of the header stage. *)
Lemma decode_preserves fmt stream img img' :
  decode fmt stream img = Returned img' ->
  _width img' = _width img /\ _height img' = _height img
  /\ _max_value img' = _max_value img
  /\ length (_data img') = length (_data img).
Proof.
  unfold decode.
  set (r := if eq0 (compare fmt "P1") then _ else _).
  assert (Hr : forall s', r = Returned s' -> length s'.2 = length (_data img)).
  { intros s'. subst r.
    destruct (eq0 (compare fmt "P1")).
    { intros E. by rewrite (pixel_rows_length _ _ _ _ _ p1_pixel_length E). }
    destruct (eq0 (compare fmt "P2")).
    { intros E. by rewrite (pixel_rows_length _ _ _ _ _ p2_pixel_length E). }
    destruct (eq0 (compare fmt "P4")).
    { intros E. by rewrite (bit_rows_length _ _ _ _ E). }
    destruct (eq0 (compare fmt "P5")).
    { intros E. by rewrite (pixel_rows_length _ _ _ _ _ p5_pixel_length E). }
    by intros [= <-]. }
  destruct r as [[st d]| |]; [|done..]. cbn. intros [= <-]. cbn.
  repeat split. by apply (Hr (st, d)).
Qed.

(** Whenever [LoadImage] returns past the magic number, the buffer has as
    many entries as the wrapped product of the dimensions it leaves. *)
Lemma LoadImage_buffer_length file img b img' :
  LoadImage file img = Returned (b, img') ->
  bad_magic (getline (ifstream file) EmptyString).1 = false ->
  length (_data img') = Z.to_nat (wrap32 (_width img' * _height img')).
Proof.
  unfold LoadImage. destruct (getline (ifstream file) EmptyString) as [fmt infile].
  cbn [fst]. intros E Hm. rewrite Hm, max_value_guard_true in E.
  unfold read_dimensions, read_max_value in E.
  destruct (extract_unsigned UINT_MAX _ (_width img)) as [w s1].
  destruct (extract_unsigned UINT_MAX s1 (_height img)) as [h s2].
  cbn [_max_value _data _width _height] in E.
  destruct (extract_unsigned USHRT_MAX s2 (_max_value img)) as [m s3].
  cbn [_max_value] in E. destruct (255 <? m).
  - injection E as <- <-. cbn. by rewrite length_resize.
  - unfold decode_and_return in E.
    destruct (decode fmt s3 _) as [img1| |] eqn:Ed; [|done..].
    cbn in E. injection E as <- <-.
    destruct (decode_preserves _ _ _ _ Ed) as (-> & -> & _ & ->).
    cbn. by rewrite length_resize.
Qed.

(** The whitespace loop never runs out of turns: more of them change
    nothing. *)
Lemma skip_space_loop_fuel l e f fuel fuel' :
  (length l < fuel)%nat -> (length l < fuel')%nat ->
  skip_space_loop fuel (mk_istream l e f) = skip_space_loop fuel' (mk_istream l e f).
Proof.
  revert e f fuel fuel'.
  induction l as [|c l IH]; intros e f fuel fuel' Hfuel Hfuel';
    (destruct fuel as [|fuel]; [cbn in Hfuel; lia|]);
    (destruct fuel' as [|fuel']; [cbn in Hfuel'; lia|]);
    cbn [skip_space_loop]; unfold peek, sentry.
  - by destruct (good (mk_istream [] e f)).
  - destruct (good (mk_istream (c :: l) e f)) eqn:Hg; [|done].
    cbn [rdbuf isspace_int]. destruct (isspace c); [|done].
    unfold read, sentry. rewrite Hg. cbn [rdbuf with_rdbuf snd eofbit failbit].
    apply IH; cbn in Hfuel, Hfuel'; lia.
Qed.

Lemma skip_space_loop_enough s fuel :
  (length (rdbuf s) < fuel)%nat -> skip_space_loop fuel s = skip_space s.
Proof.
  destruct s as [l e f]. intros H. unfold skip_space.
  apply skip_space_loop_fuel; cbn [rdbuf] in *; lia.
Qed.

End Preservation.

(** ** Properties of the loader *)

Lemma getline_first_line bytes str :
  fst (getline (ifstream (Some bytes)) str)
  = string_of_list_ascii (fst (split_line bytes)).
Proof.
  unfold getline, ifstream, sentry. cbn.
  by destruct (split_line bytes) as [[|c line] [rest|]].
Qed.

Lemma decode_and_return_true fmt stream img r :
  decode_and_return fmt stream img = Returned r -> fst r = true.
Proof.
  unfold decode_and_return. destruct (decode fmt stream img); [|done..].
  cbn. by intros [= <-].
Qed.



(** C2 fails: a max-value above 255 makes [LoadImage] return false on a
    default-constructed image after the dimensions, the buffer and the
    max-value have been overwritten; [IsInitialized] then answers true. *)
Lemma rejected_depth_mutates_image :
  LoadImage (Some (lines ["P2"; "2 2"; "300"]%string)) GraymapImage_new
  = Returned (false, mk_image [0; 0; 0; 0] 2 2 300)
  /\ IsInitialized (mk_image [0; 0; 0; 0] 2 2 300) = true
  /\ mk_image [0; 0; 0; 0] 2 2 300 <> GraymapImage_new.
Proof. split; [reflexivity|]. split; [reflexivity|]. discriminate. Qed.

(** C2, amended: when [LoadImage] returns false, either the first line is
    none of the four magic numbers and the image is exactly as it was, or
    the magic number was accepted and the image holds a max-value above 255
    next to the dimensions read, its buffer being the old one resized to
    their wrapped product. *)
Theorem failed_load_state file img img' :
  LoadImage file img = Returned (false, img') ->
  let fmt := fst (getline (ifstream file) EmptyString) in
  (bad_magic fmt = true /\ img' = img)
  \/ (bad_magic fmt = false /\ 255 < _max_value img'
      /\ _data img'
         = resize (Z.to_nat (wrap32 (_width img' * _height img'))) 0 (_data img)).
Proof.
  unfold LoadImage. destruct (getline (ifstream file) EmptyString) as [fmt infile].
  cbn [fst]. destruct (bad_magic fmt).
  - intros [= <-]. by left.
  - rewrite max_value_guard_true. unfold read_dimensions, read_max_value.
    destruct (extract_unsigned UINT_MAX _ (_width img)) as [w s1].
    destruct (extract_unsigned UINT_MAX s1 (_height img)) as [h s2].
    cbn [_max_value _data _width _height].
    destruct (extract_unsigned USHRT_MAX s2 (_max_value img)) as [m s3].
    cbn [_max_value]. destruct (Z.ltb_spec 255 m) as [Hm|Hm].
    + intros [= <-]. right. by cbn.
    + intros H. by apply decode_and_return_true in H.
Qed.

Lemma failed_load_state_witness :
  let file := Some (lines ["P2"; "2 2"; "300"]%string) in
  let img' := mk_image [0; 0; 0; 0] 2 2 300 in
  LoadImage file GraymapImage_new = Returned (false, img')
  /\ ((bad_magic "P2" = true /\ img' = GraymapImage_new)
      \/ (bad_magic "P2" = false /\ 255 < _max_value img'
          /\ _data img' = resize (Z.to_nat (wrap32 (2 * 2))) 0 [])).
Proof.
  intros file img'. split; [reflexivity|].
  exact (failed_load_state file GraymapImage_new img' eq_refl).
Defined.

(** C4 fails on the code: [stream >> _data[...]] extracts into an
    [unsigned char], that is one character and not a decimal number, so the
    buffer holds the codes of the first four characters that are not
    spaces, '0' '1' '2' '8'. Width, height and max-value are as claimed. *)
Theorem p2_file_decodes_to_character_codes :
  LoadImage (Some (lines ["P2"; "2 2"; "255"; "0 128 255 64"]%string))
    GraymapImage_new
  = Returned (true, mk_image [48; 49; 50; 56] 2 2 255).
Proof. reflexivity. Qed.

(** C5 fails on the code: the first pixel token of a P1 file is consumed
    as the max-value, and every other one is read as a character whose code
    is multiplied by 255 modulo 256: '0' gives 208 and '1' gives 207. The
    last entry, for which no character is left, stays 0. *)
Theorem p1_file_decodes_to_scaled_character_codes :
  LoadImage (Some (lines ["P1"; "2 2"; "1 0 0 1"]%string)) GraymapImage_new
  = Returned (true, mk_image [208; 208; 207; 0] 2 2 1).
Proof. reflexivity. Qed.

(** C6 fails on the code: on a P4 file the max-value extraction meets the
    first pixel byte, here 0b10110000, fails and leaves the stream failed;
    no pixel byte is read afterwards and the eight pixels are 0. *)
Theorem p4_file_decodes_to_zeros :
  LoadImage (Some (lines ["P4"; "8 1"]%string ++ ["176"%char])) GraymapImage_new
  = Returned (true, mk_image [0; 0; 0; 0; 0; 0; 0; 0] 8 1 0).
Proof. reflexivity. Qed.

(** The same byte behind a max-value token, which the P4 format does not
    have, decodes as the comments of lines 140-158 say. *)
Example p4_byte_after_max_value :
  LoadImage (Some (lines ["P4"; "8 1"; "1"]%string ++ ["176"%char])) GraymapImage_new
  = Returned (true, mk_image [255; 0; 255; 255; 0; 0; 0; 0] 8 1 1).
Proof. reflexivity. Qed.

(** C9: on a well-formed header whose max-value is above 255, whatever the
    format, [LoadImage] returns false; the image it leaves holds the
    dimensions, a buffer resized but with no pixel written, and the
    max-value read (65535 when the token is larger than that). *)
Theorem max_value_above_255_rejected h tail img :
  well_formed h = true -> ends_number tail = true ->
  255 < decimal (h_max h) ->
  LoadImage (Some (header_text h ++ tail)) img
  = Returned (false, after_header h img).
Proof.
  intros Hwf Ht Hm. rewrite LoadImage_header by done.
  by replace (255 <? decimal (h_max h)) with true by (symmetry; by apply Z.ltb_lt).
Qed.

Lemma max_value_above_255_rejected_witness :
  let h := mk_header "P2" None [] (text "2") (text " ") (text "2") [newline]
             (text "300") in
  well_formed h = true /\ ends_number [newline] = true
  /\ 255 < decimal (h_max h)
  /\ LoadImage (Some (lines ["P2"; "2 2"; "300"]%string)) GraymapImage_new
     = Returned (false, mk_image [0; 0; 0; 0] 2 2 300).
Proof.
  intros h. split; [reflexivity|]. split; [reflexivity|]. split; [reflexivity|].
  exact (max_value_above_255_rejected h [newline] GraymapImage_new
           eq_refl eq_refl eq_refl).
Defined.

(** C10: a file that cannot be opened, or whose first line is none of
    "P1", "P2", "P4", "P5" (an empty file has the empty first line), makes
    [LoadImage] return false with the image untouched; a default-constructed
    image is then as the constructor made it. *)
Theorem bad_magic_leaves_image_unchanged file img :
  (forall bytes, file = Some bytes ->
     let l := string_of_list_ascii (fst (split_line bytes)) in
     l <> "P1"%string /\ l <> "P2"%string /\ l <> "P4"%string /\ l <> "P5"%string) ->
  LoadImage file img = Returned (false, img)
  /\ LoadImage file GraymapImage_new = Returned (false, GraymapImage_new)
  /\ IsInitialized GraymapImage_new = false
  /\ GetWidth GraymapImage_new = 0
  /\ GetHeight GraymapImage_new = 0
  /\ GetMaxValue GraymapImage_new = 255.
Proof.
  intros H.
  assert (Hbad : bad_magic (fst (getline (ifstream file) EmptyString)) = true).
  { destruct file as [bytes|]; [|reflexivity].
    rewrite getline_first_line. apply bad_magic_iff. by apply H. }
  assert (Hload : forall i, LoadImage file i = Returned (false, i)).
  { intros i. unfold LoadImage.
    destruct (getline (ifstream file) EmptyString) as [fmt infile].
    cbn [fst] in Hbad. by rewrite Hbad. }
  repeat split; by rewrite ?Hload.
Qed.

Lemma bad_magic_leaves_image_unchanged_witness :
  let file := Some (lines ["XX"; "2 2"; "255"; "0 128 255 64"]%string) in
  let img := mk_image [1; 2] 2 1 255 in
  LoadImage file img = Returned (false, img)
  /\ LoadImage file GraymapImage_new = Returned (false, GraymapImage_new)
  /\ IsInitialized GraymapImage_new = false
  /\ GetWidth GraymapImage_new = 0
  /\ GetHeight GraymapImage_new = 0
  /\ GetMaxValue GraymapImage_new = 255.
Proof.
  intros file img. apply (bad_magic_leaves_image_unchanged file img).
  intros bytes [= <-]. cbn. repeat split; discriminate.
Defined.

Lemma stream_at_small h tail :
  decimal (h_max h) <= 255 -> stream_at h tail = mk_istream tail (is_nil tail) false.
Proof.
  intros H. unfold stream_at. f_equal. apply Z.ltb_ge. unfold USHRT_MAX. lia.
Qed.

Lemma well_formed_dimensions h :
  well_formed h = true -> 0 <= decimal (h_width h) /\ 0 <= decimal (h_height h).
Proof.
  intros Hwf. unfold well_formed in Hwf.
  repeat (apply andb_true_iff in Hwf as [Hwf ?]).
  split; by apply decimal_nonneg.
Qed.

Lemma avail_chars_after_header tail :
  avail_chars (mk_istream tail (is_nil tail) false) = List.filter nonspace tail.
Proof. by destruct tail. Qed.





(** The image that the file of C8's example leaves. *)
Example p5_4x4_with_8_bytes :
  LoadImage (Some (lines ["P5"; "4 4"; "255"]%string ++ text "abcdefgh"))
    GraymapImage_new
  = Returned (true,
      mk_image [97; 98; 99; 100; 101; 102; 103; 104; 0; 0; 0; 0; 0; 0; 0; 0]
        4 4 255).
Proof. reflexivity. Qed.

(** C7 fails: on the 2x2 image loaded from four bytes, [GetPixel(2, 0)],
    whose x is the width, does not fail: it returns the entry at index 2,
    the pixel (0, 1). *)
Lemma GetPixel_at_width_returns_next_row :
  LoadImage (Some (lines ["P5"; "2 2"; "255"]%string ++ text "abcd"))
    GraymapImage_new
  = Returned (true, mk_image [97; 98; 99; 100] 2 2 255)
  /\ GetPixel (mk_image [97; 98; 99; 100] 2 2 255) 2 0 = Some 99
  /\ GetPixel (mk_image [97; 98; 99; 100] 2 2 255) 0 1 = Some 99.
Proof. repeat split. Qed.

(** C7, amended: on an image for which [LoadImage] returned true,
    [GetPixel(x, y)] fails exactly when the row-major index y*W+x, wrapped to
    32 bits, is at least the number of entries of the buffer, which is W*H
    wrapped to 32 bits. When moreover W and H are positive and W*H is below
    2^32, for x and y not negative: [GetPixel(0, H)] fails, and so does every
    query with y >= H whose index y*W+x is below 2^32; every query with
    x < W and y < H succeeds; and [GetPixel(W, 0)] is [GetPixel(0, 1)], which
    succeeds as soon as the image has two rows. *)
Theorem GetPixel_checks_linear_index file img0 img x y :
  LoadImage file img0 = Returned (true, img) ->
  (GetPixel img x y = None
   <-> wrap32 (GetWidth img * GetHeight img) <= wrap32 (y * GetWidth img + x))
  /\ (0 < GetWidth img -> 0 < GetHeight img ->
      GetWidth img * GetHeight img < 2 ^ 32 -> 0 <= x -> 0 <= y ->
      GetPixel img 0 (GetHeight img) = None
      /\ (GetHeight img <= y -> y * GetWidth img + x < 2 ^ 32 ->
          GetPixel img x y = None)
      /\ (x < GetWidth img -> y < GetHeight img -> is_Some (GetPixel img x y))
      /\ (2 <= GetHeight img ->
          GetPixel img (GetWidth img) 0 = GetPixel img 0 1
          /\ is_Some (GetPixel img (GetWidth img) 0))).
Proof.
  intros E.
  assert (Hm : bad_magic (getline (ifstream file) EmptyString).1 = false).
  { unfold LoadImage in E.
    destruct (getline (ifstream file) EmptyString) as [fmt infile]. cbn [fst].
    by destruct (bad_magic fmt). }
  pose proof (LoadImage_buffer_length _ _ _ _ E Hm) as Hlen.
  unfold GetWidth, GetHeight, GetPixel.
  set (W := _width img) in *. set (H := _height img) in *.
  assert (Hsize : 0 <= wrap32 (W * H)) by (apply Z.mod_pos_bound; lia).
  assert (Hw : forall z, 0 <= wrap32 z) by (intros z; apply Z.mod_pos_bound; lia).
  split.
  - rewrite lookup_ge_None, Hlen. pose proof (Hw (y * W + x)). lia.
  - intros HW HH Hwh Hx Hy. rewrite wrap32_small in Hlen by nia.
    split; [|split; [|split]].
    + apply lookup_ge_None. rewrite wrap32_small by nia. lia.
    + intros Hy' Hs. apply lookup_ge_None. rewrite wrap32_small by nia. nia.
    + intros Hx' Hy'. apply lookup_lt_is_Some. rewrite wrap32_small by nia. nia.
    + intros H2. split.
      * by replace (0 * W + W) with (1 * W + 0) by lia.
      * apply lookup_lt_is_Some. rewrite wrap32_small by nia. nia.
Qed.

Lemma GetPixel_checks_linear_index_witness :
  let file := Some (lines ["P5"; "2 2"; "255"]%string ++ text "abcd") in
  let img := mk_image [97; 98; 99; 100] 2 2 255 in
  LoadImage file GraymapImage_new = Returned (true, img)
  /\ (GetPixel img 2 0 = None
      <-> wrap32 (GetWidth img * GetHeight img) <= wrap32 (0 * GetWidth img + 2))
  /\ (0 < GetWidth img -> 0 < GetHeight img ->
      GetWidth img * GetHeight img < 2 ^ 32 -> 0 <= 2 -> 0 <= 0 ->
      GetPixel img 0 (GetHeight img) = None
      /\ (GetHeight img <= 0 -> 0 * GetWidth img + 2 < 2 ^ 32 ->
          GetPixel img 2 0 = None)
      /\ (2 < GetWidth img -> 0 < GetHeight img -> is_Some (GetPixel img 2 0))
      /\ (2 <= GetHeight img ->
          GetPixel img (GetWidth img) 0 = GetPixel img 0 1
          /\ is_Some (GetPixel img (GetWidth img) 0))).
Proof.
  intros file img. split; [reflexivity|].
  exact (GetPixel_checks_linear_index file GraymapImage_new img 2 0 eq_refl).
Defined.

(** What the P4 decoder does when a max-value token, which the P4 format
    does not have, stands between the dimensions and the packed rows: for a
    width of 8*c and at least H*c bytes behind the whitespace, bit [7 - k] of
    byte [j] of row [row] is the pixel (8*j + k, row), scaled to 0 or 255. *)
Proposition p4_pixels_behind_max_value h tail img c :
  well_formed h = true -> h_magic h = "P4"%string -> ends_number tail = true ->
  decimal (h_max h) <= 255 ->
  let W := decimal (h_width h) in
  let H := decimal (h_height h) in
  let pix := skipws tail in
  W = 8 * c -> W <= 2 ^ 32 - 8 -> W * H < 2 ^ 32 ->
  H * c <= Z.of_nat (length pix) ->
  exists img',
    LoadImage (Some (header_text h ++ tail)) img = Returned (true, img')
    /\ forall row j k, 0 <= row < H -> 0 <= j < c -> 0 <= k < 8 ->
         GetPixel img' (8 * j + k) row
         = (fun byte => if Z.testbit (uchar_of byte) (7 - k) then 255 else 0)
           <$> pix !! Z.to_nat (row * c + j).
Proof.
  intros Hwf Hm Ht Hmax W H pix HWc H8 Hwh Hlen.
  destruct (well_formed_dimensions h Hwf) as [HW HH]. fold W in HW. fold H in HH.
  assert (Hc : 0 <= c) by lia.
  rewrite LoadImage_header by done.
  replace (255 <? decimal (h_max h)) with false by (symmetry; apply Z.ltb_ge; lia).
  rewrite stream_at_small by done. rewrite Hm.
  unfold decode_and_return, decode, after_header.
  cbn [_width _height _data _max_value]. fold W H.
  change (eq0 (compare "P4" "P1")) with false.
  change (eq0 (compare "P4" "P2")) with false.
  change (eq0 (compare "P4" "P4")) with true. cbv iota.
  rewrite wrap32_small by nia.
  destruct (bit_rows_bitmap pix W H c
              (skip_space (mk_istream tail (is_nil tail) false),
               resize (Z.to_nat (W * H)) 0 (_data img)))
    as ([st d] & -> & Hav & Hd & Hpix); [done|done|done|done|lia|done| |].
  - repeat split; cbn [fst snd].
    + by rewrite skip_space_avail.
    + by rewrite length_resize.
    + lia.
  - cbn [fst snd] in *. eexists. split; [reflexivity|].
    intros row j k Hrow Hj Hk. unfold GetPixel. cbn [_width _data].
    assert (Hidx : row * W + (8 * j + k) = 8 * (row * c + j) + k) by lia.
    rewrite Hidx, wrap32_small by nia. rewrite Hpix by nia.
    rewrite Z2Nat.id by nia.
    replace ((8 * (row * c + j) + k) `div` 8) with (row * c + j)
      by (apply (Z.div_unique _ _ _ k); lia).
    replace ((8 * (row * c + j) + k) `mod` 8) with k
      by (apply (Z.mod_unique _ _ (row * c + j)); lia).
    destruct (pix !! Z.to_nat (row * c + j)) as [byte|]; [|done].
    cbn. by rewrite pixel_of_bit_testbit by lia.
Qed.

(** The whitespace loop of lines 166-169 does not stop after the single
    whitespace byte that ends a P5 header: a first pixel whose value is a
    whitespace code (here 32) is skipped with it, and the entry stays 0. *)
Example p5_leading_space_pixel_is_skipped :
  LoadImage (Some (lines ["P5"; "1 1"; "255"]%string ++ [" "%char]))
    GraymapImage_new
  = Returned (true, mk_image [0] 1 1 255).
Proof. reflexivity. Qed.

(** [resize] keeps the entries of an image that was loaded before: behind
    truncated data they are the old pixels, not zeros. *)
Example truncated_reload_keeps_old_pixels :
  LoadImage (Some (lines ["P5"; "2 2"; "255"]%string ++ text "ab"))
    (mk_image [1; 2; 3; 4] 2 2 255)
  = Returned (true, mk_image [97; 98; 3; 4] 2 2 255).
Proof. reflexivity. Qed.

(** Dimensions whose product wraps leave a buffer smaller than the loops
    expect: the first write is out of range. *)
Example wrapped_product_is_undefined :
  LoadImage (Some (lines ["P5"; "65536 65536 255"]%string)) GraymapImage_new
  = Undefined.
Proof. reflexivity. Qed.

(** A width whose parse overflows leaves the stream failed: neither the
    height nor the max-value is extracted, the members keep their values and
    a token above 255 is not seen. *)
Example overflowing_width_hides_max_value :
  LoadImage (Some (lines ["P2"; "99999999999 2"; "300"]%string)) GraymapImage_new
  = Returned (true, mk_image [] 4294967295 0 255).
Proof. reflexivity. Qed.

(** ** Further properties of the loader *)

Section Returns.

Lemma p1_pixel_subscripts : subscripts p1_pixel.
Proof.
  intros idx st d. unfold p1_pixel. destruct (d !! Z.to_nat idx) as [old|]; [|done].
  destruct (extract_uchar st old) as [v st']. eexists. split; [done|].
  cbn [snd]. by rewrite !length_insert.
Qed.

Lemma p2_pixel_subscripts : subscripts p2_pixel.
Proof.
  intros idx st d. unfold p2_pixel. destruct (d !! Z.to_nat idx) as [old|]; [|done].
  destruct (extract_uchar st old) as [v st']. eexists. split; [done|].
  cbn [snd]. by rewrite length_insert.
Qed.

Lemma p5_pixel_subscripts : subscripts p5_pixel.
Proof.
  intros idx st d. unfold p5_pixel. destruct (d !! Z.to_nat idx) as [old|]; [|done].
  destruct (read st old) as [v st']. eexists. split; [done|].
  cbn [snd]. by rewrite length_insert.
Qed.

(** Inside the buffer the loops of a subscripting statement return. *)
Lemma pixel_rows_returns pixel W H s :
  subscripts pixel -> 0 <= W -> 0 <= H -> W * H < 2 ^ 32 ->
  length s.2 = Z.to_nat (W * H) ->
  exists s', pixel_rows W H pixel s = Returned s'
             /\ length s'.2 = Z.to_nat (W * H).
Proof.
  intros Hpixel HW HH Hwh Hlen.
  apply (pixel_rows_invariant (fun _ s' => length s'.2 = Z.to_nat (W * H)));
    [done..|].
  intros p [st d] Hp Hd. cbn [snd] in Hd. specialize (Hpixel (Z.of_nat p) st d).
  rewrite Nat2Z.id in Hpixel.
  destruct (lookup_lt_is_Some_2 d p) as [old Hold]; [lia|]. rewrite Hold in Hpixel.
  destruct Hpixel as (s' & E & Hlen'). exists s'. split; [done|]. by rewrite Hlen'.
Qed.

Lemma bit_rows_returns W H s :
  0 <= W <= 2 ^ 32 - 8 -> 0 <= H ->
  exists s', bit_rows W H s = Returned s' /\ length s'.2 = length s.2.
Proof.
  intros HW HH. unfold bit_rows, for_each, for_each_8.
  replace (2 ^ 32 - 8 <? W) with false by (symmetry; apply Z.ltb_ge; lia).
  destruct (rows_invariant (fun (_ : nat) (s' : decoder_state) => length s'.2 = length s.2) 8
              (Z.to_nat H) (Z.to_nat ((W + 7) / 8)) (fun j i => p4_byte W j i) s)
    as (s' & E & Hlen); [done| |by exists s'].
  intros j k [st d] Hj Hk Hd. unfold p4_byte.
  destruct (read st 0) as [temp st']. eexists. split; [done|].
  cbn [snd] in *. by rewrite p4_bits_length.
Qed.

(** With dimensions whose product does not wrap (and, for P4, a width that
    the counter of line 149 can pass), every decoder returns. *)
Lemma decode_returns fmt stream img :
  0 <= _width img -> 0 <= _height img ->
  _width img * _height img < 2 ^ 32 ->
  length (_data img) = Z.to_nat (_width img * _height img) ->
  (fmt = "P4"%string -> _width img <= 2 ^ 32 - 8) ->
  exists img', decode fmt stream img = Returned img'.
Proof.
  intros HW HH Hwh Hlen H4. unfold decode.
  destruct (eq0 (compare fmt "P1")) eqn:E1.
  { destruct (pixel_rows_returns p1_pixel (_width img) (_height img) (stream, _data img))
      as ([st d] & -> & _); by eauto using p1_pixel_subscripts. }
  destruct (eq0 (compare fmt "P2")) eqn:E2.
  { destruct (pixel_rows_returns p2_pixel (_width img) (_height img) (stream, _data img))
      as ([st d] & -> & _); by eauto using p2_pixel_subscripts. }
  destruct (eq0 (compare fmt "P4")) eqn:E4.
  { apply compare_eq0 in E4.
    destruct (bit_rows_returns (_width img) (_height img) (skip_space stream, _data img))
      as ([st d] & -> & _); by eauto. }
  destruct (eq0 (compare fmt "P5")) eqn:E5.
  { destruct (pixel_rows_returns p5_pixel (_width img) (_height img)
                (skip_space stream, _data img))
      as ([st d] & -> & _); by eauto using p5_pixel_subscripts. }
  by eexists.
Qed.

End Returns.

(** X1: after a load that returns true the buffer has as many entries as
    the product of the dimensions the image reports, wrapped to 32 bits, and
    [IsInitialized] answers true exactly when that wrapped product is not
    zero. *)
Theorem successful_load_buffer_shape file img img' :
  LoadImage file img = Returned (true, img') ->
  length (_data img') = Z.to_nat (wrap32 (GetWidth img' * GetHeight img'))
  /\ IsInitialized img' = (0 <? wrap32 (GetWidth img' * GetHeight img')).
Proof.
  intros E.
  assert (Hm : bad_magic (getline (ifstream file) EmptyString).1 = false).
  { unfold LoadImage in E.
    destruct (getline (ifstream file) EmptyString) as [fmt infile]. cbn [fst].
    by destruct (bad_magic fmt). }
  pose proof (LoadImage_buffer_length _ _ _ _ E Hm) as Hlen.
  split; [done|]. unfold IsInitialized, GetWidth, GetHeight in *. rewrite Hlen.
  assert (Hw : 0 <= wrap32 (_width img' * _height img'))
    by (apply Z.mod_pos_bound; lia).
  rewrite Z2Nat.id by done.
  destruct (Z.ltb_spec 0 (wrap32 (_width img' * _height img'))) as [Hpos|Hz].
  - rewrite andb_true_r.
    destruct (Z.eqb_spec (_width img') 0) as [E0|_];
      [rewrite E0, Z.mul_0_l in Hpos; by vm_compute in Hpos|].
    destruct (Z.eqb_spec (_height img') 0) as [E0|_];
      [rewrite E0, Z.mul_0_r in Hpos; by vm_compute in Hpos|].
    done.
  - by rewrite andb_false_r.
Qed.

Lemma successful_load_buffer_shape_witness :
  let file := Some (lines ["P5"; "0 3"; "255"]%string) in
  let img' := mk_image [] 0 3 255 in
  LoadImage file GraymapImage_new = Returned (true, img')
  /\ length (_data img') = Z.to_nat (wrap32 (GetWidth img' * GetHeight img'))
  /\ IsInitialized img' = (0 <? wrap32 (GetWidth img' * GetHeight img')).
Proof.
  intros file img'. split; [reflexivity|].
  exact (successful_load_buffer_shape file GraymapImage_new img' eq_refl).
Defined.

(** X2: whatever the file and the format, an image that [LoadImage]
    returns true for has a max-value of at most 255. *)
Theorem successful_load_max_value file img img' :
  LoadImage file img = Returned (true, img') -> GetMaxValue img' <= 255.
Proof.
  unfold LoadImage, GetMaxValue.
  destruct (getline (ifstream file) EmptyString) as [fmt infile].
  destruct (bad_magic fmt); [done|]. rewrite max_value_guard_true.
  destruct (read_dimensions _ img) as [stream img1].
  destruct (read_max_value stream img1) as [stream2 img2].
  destruct (Z.ltb_spec 255 (_max_value img2)) as [Hm|Hm]; [done|].
  unfold decode_and_return.
  destruct (decode fmt stream2 img2) as [img3| |] eqn:Ed; [|done..].
  cbn. intros [= <-].
  by destruct (decode_preserves _ _ _ _ Ed) as (_ & _ & -> & _).
Qed.

Lemma successful_load_max_value_witness :
  let file := Some (lines ["P2"; "1 1"; "7"; "5"]%string) in
  let img' := mk_image [53] 1 1 7 in
  LoadImage file (mk_image [] 0 0 999) = Returned (true, img')
  /\ GetMaxValue img' <= 255.
Proof.
  intros file img'. split; [reflexivity|].
  exact (successful_load_max_value file (mk_image [] 0 0 999) img' eq_refl).
Defined.

(** X3: on a well-formed header of any of the four formats whose
    dimensions have a product below 2^32 (and, for P4, a width of at most
    2^32 - 8), [LoadImage] returns, whatever follows the header and whatever
    the image held: true exactly when the max-value is at most 255, and an
    image that reports the width, the height and the max-value of the header
    (65535 for a larger token) over a buffer of width*height entries. *)
Theorem well_formed_load_returns h tail img :
  well_formed h = true -> ends_number tail = true ->
  let W := decimal (h_width h) in
  let H := decimal (h_height h) in
  W * H < 2 ^ 32 ->
  (h_magic h = "P4"%string -> W <= 2 ^ 32 - 8) ->
  exists img',
    LoadImage (Some (header_text h ++ tail)) img
    = Returned (decimal (h_max h) <=? 255, img')
    /\ GetWidth img' = W /\ GetHeight img' = H
    /\ GetMaxValue img' = Z.min (decimal (h_max h)) USHRT_MAX
    /\ Z.of_nat (length (_data img')) = W * H.
Proof.
  intros Hwf Ht W H Hwh H4.
  destruct (well_formed_dimensions h Hwf) as [HW HH]. fold W in HW. fold H in HH.
  rewrite LoadImage_header by done.
  assert (Hlen : length (_data (after_header h img)) = Z.to_nat (W * H)).
  { unfold after_header. cbn [_data]. fold W H.
    by rewrite length_resize, wrap32_small by nia. }
  destruct (Z.ltb_spec 255 (decimal (h_max h))) as [Hm|Hm].
  - replace (decimal (h_max h) <=? 255) with false by (symmetry; apply Z.leb_gt; lia).
    eexists. split; [done|]. repeat split. rewrite Hlen. nia.
  - replace (decimal (h_max h) <=? 255) with true by (symmetry; apply Z.leb_le; lia).
    unfold decode_and_return.
    destruct (decode_returns (h_magic h) (stream_at h tail) (after_header h img))
      as (img' & Ed); [done..|].
    rewrite Ed. destruct (decode_preserves _ _ _ _ Ed) as (Ew & Eh & Em & El).
    eexists. split; [done|]. unfold GetWidth, GetHeight, GetMaxValue.
    rewrite Ew, Eh, Em, El, Hlen. repeat split. nia.
Qed.

Lemma well_formed_load_returns_witness :
  let h := mk_header "P1" None [] (text "2") (text " ") (text "3") [newline]
             (text "70000") in
  let tail := text " 1 0" in
  well_formed h = true /\ ends_number tail = true
  /\ decimal (h_width h) * decimal (h_height h) < 2 ^ 32
  /\ (h_magic h = "P4"%string -> decimal (h_width h) <= 2 ^ 32 - 8)
  /\ exists img',
       LoadImage (Some (header_text h ++ tail)) (mk_image [9] 1 1 255)
       = Returned (decimal (h_max h) <=? 255, img')
       /\ GetWidth img' = 2 /\ GetHeight img' = 3
       /\ GetMaxValue img' = Z.min (decimal (h_max h)) USHRT_MAX
       /\ Z.of_nat (length (_data img')) = 2 * 3.
Proof.
  intros h tail.
  split; [reflexivity|]. split; [reflexivity|]. split; [reflexivity|].
  split; [discriminate|].
  exact (well_formed_load_returns h tail (mk_image [9] 1 1 255) eq_refl eq_refl
           eq_refl ltac:(discriminate)).
Defined.

(** X4: the layout of a well-formed header does not matter. Two headers
    with the same magic number and the same three numbers, whatever their
    comment line, their whitespace and the leading zeros of their numbers,
    make [LoadImage] do the same on the same pixel data and the same
    image. *)
Theorem header_layout_is_irrelevant h1 h2 tail img :
  well_formed h1 = true -> well_formed h2 = true -> ends_number tail = true ->
  h_magic h1 = h_magic h2 ->
  decimal (h_width h1) = decimal (h_width h2) ->
  decimal (h_height h1) = decimal (h_height h2) ->
  decimal (h_max h1) = decimal (h_max h2) ->
  LoadImage (Some (header_text h1 ++ tail)) img
  = LoadImage (Some (header_text h2 ++ tail)) img.
Proof.
  intros Hwf1 Hwf2 Ht Em Ew Eh Ex. rewrite !LoadImage_header by done.
  unfold after_header, stream_at. by rewrite Em, Ew, Eh, Ex.
Qed.

Lemma header_layout_is_irrelevant_witness :
  let h1 := mk_header "P5" None [] (text "2") (text " ") (text "1") [newline]
              (text "255") in
  let h2 := mk_header "P5" (Some (text " a comment")) (text "  ") (text "002")
              [newline; newline] (text "01") (text " ") (text "0255") in
  let tail := newline :: text "ab" in
  well_formed h1 = true /\ well_formed h2 = true /\ ends_number tail = true
  /\ h_magic h1 = h_magic h2
  /\ decimal (h_width h1) = decimal (h_width h2)
  /\ decimal (h_height h1) = decimal (h_height h2)
  /\ decimal (h_max h1) = decimal (h_max h2)
  /\ LoadImage (Some (header_text h1 ++ tail)) GraymapImage_new
     = LoadImage (Some (header_text h2 ++ tail)) GraymapImage_new.
Proof.
  intros h1 h2 tail. do 7 (split; [reflexivity|]).
  exact (header_layout_is_irrelevant h1 h2 tail GraymapImage_new eq_refl eq_refl
           eq_refl eq_refl eq_refl eq_refl eq_refl).
Defined.

Section Exact.

Lemma p5_pixel_reads : reads avail_bytes uchar_of id p5_pixel.
Proof.
  intros p st d old Hold. unfold p5_pixel. rewrite Nat2Z.id, Hold.
  destruct (avail_bytes st) as [|c r] eqn:Ea.
  - destruct (read_avail_nil st old Ea) as (st' & -> & Ea'). by exists st'.
  - destruct (read_avail_cons st c r old Ea) as (st' & -> & Ea'). by exists st'.
Qed.

Lemma p2_pixel_reads : reads avail_chars uchar_of id p2_pixel.
Proof.
  intros p st d old Hold. unfold p2_pixel. rewrite Nat2Z.id, Hold.
  destruct (avail_chars st) as [|c r] eqn:Ea.
  - destruct (extract_uchar_avail_nil st old Ea) as (st' & -> & Ea'). by exists st'.
  - destruct (extract_uchar_avail_cons st c r old Ea) as (st' & -> & Ea'). by exists st'.
Qed.

Lemma p1_pixel_reads :
  reads avail_chars (fun c => times_255 (uchar_of c)) times_255 p1_pixel.
Proof.
  intros p st d old Hold. unfold p1_pixel, times_255. rewrite Nat2Z.id, Hold.
  destruct (avail_chars st) as [|c r] eqn:Ea.
  - destruct (extract_uchar_avail_nil st old Ea) as (st' & -> & Ea').
    exists st'. by rewrite list_insert_insert_eq.
  - destruct (extract_uchar_avail_cons st c r old Ea) as (st' & -> & Ea').
    exists st'. by rewrite list_insert_insert_eq.
Qed.

Lemma filled_step avail f g pixel src d0 p s :
  reads avail f g pixel -> (p < length d0)%nat ->
  filled avail f g src d0 p s ->
  exists s', pixel (Z.of_nat p) s = Returned s' /\ filled avail f g src d0 (p + 1) s'.
Proof.
  destruct s as [st d]. intros Hreads Hp (Hav & Hlen & Hd). cbn [fst snd] in *.
  destruct (lookup_lt_is_Some_2 d p) as [old Hold]; [lia|].
  assert (Hold0 : d0 !! p = Some old).
  { rewrite <- Hold, Hd. by rewrite decide_False by lia. }
  specialize (Hreads p st d old Hold). rewrite Hav in Hreads.
  destruct (src !! p) as [c|] eqn:Hc.
  - rewrite (drop_S _ _ _ Hc) in Hreads. destruct Hreads as (st' & -> & Hav').
    eexists. split; [done|]. repeat split; cbn [fst snd].
    + rewrite Hav'. f_equal. lia.
    + by rewrite length_insert.
    + intros k. destruct (decide (k = p)) as [->|Hne].
      * rewrite list_lookup_insert_eq by lia. by rewrite decide_True, Hc by lia.
      * rewrite list_lookup_insert_ne, Hd by done.
        destruct (decide (k < p)%nat); [by rewrite decide_True by lia|].
        by rewrite decide_False by lia.
  - rewrite drop_ge in Hreads by (by apply lookup_ge_None).
    destruct Hreads as (st' & -> & Hav').
    eexists. split; [done|]. repeat split; cbn [fst snd].
    + rewrite Hav'. symmetry. apply drop_ge. apply lookup_ge_None in Hc. lia.
    + by rewrite length_insert.
    + intros k. destruct (decide (k = p)) as [->|Hne].
      * rewrite list_lookup_insert_eq by lia.
        by rewrite decide_True, Hc, Hold0 by lia.
      * rewrite list_lookup_insert_ne, Hd by done.
        destruct (decide (k < p)%nat); [by rewrite decide_True by lia|].
        by rewrite decide_False by lia.
Qed.

(** The buffer once every entry has had its turn. *)
Lemma filled_final avail f g src d0 s :
  filled avail f g src d0 (length d0) s ->
  s.2 = (f <$> take (length d0) src) ++ (g <$> drop (length src) d0).
Proof.
  intros (_ & Hlen & Hd). apply list_eq. intros k. rewrite Hd.
  destruct (decide (k < length d0)%nat) as [Hk|Hk].
  - destruct (src !! k) as [c|] eqn:Hc.
    + assert (k < length src)%nat by (by apply lookup_lt_Some in Hc).
      rewrite lookup_app_l by (rewrite length_fmap, length_take; lia).
      by rewrite list_lookup_fmap, lookup_take_lt, Hc by done.
    + apply lookup_ge_None in Hc.
      rewrite lookup_app_r by (rewrite length_fmap, length_take; lia).
      rewrite length_fmap, length_take, list_lookup_fmap, lookup_drop.
      do 2 f_equal. lia.
  - rewrite lookup_ge_None_2 by lia. symmetry. apply lookup_ge_None_2.
    rewrite length_app, !length_fmap, length_take, length_drop. lia.
Qed.

(** The loops of a reading statement, from a stream that can deliver [src],
    over a buffer [d0] of W*H entries. *)
Lemma pixel_rows_exact avail f g pixel W H st d0 :
  reads avail f g pixel -> 0 <= W -> 0 <= H -> W * H < 2 ^ 32 ->
  length d0 = Z.to_nat (W * H) ->
  exists st',
    pixel_rows W H pixel (st, d0)
    = Returned (st', (f <$> take (length d0) (avail st))
                     ++ (g <$> drop (length (avail st)) d0)).
Proof.
  intros Hreads HW HH Hwh Hlen.
  destruct (pixel_rows_invariant (filled avail f g (avail st) d0) pixel W H (st, d0))
    as ([st' d] & E & Hf); [done..| | |].
  - split; [done|]. split; [done|]. intros k. cbn [snd]. by rewrite decide_False by lia.
  - intros p s Hp. apply filled_step; [done|lia].
  - rewrite <- Hlen in Hf. apply filled_final in Hf. cbn [snd] in Hf.
    exists st'. by rewrite E, Hf.
Qed.

Lemma decode_P5 stream img :
  decode "P5" stream img
  = ('(_, data) ← pixel_rows (_width img) (_height img) p5_pixel
                    (skip_space stream, _data img);
     Returned (mk_image data (_width img) (_height img) (_max_value img))).
Proof. reflexivity. Qed.

Lemma decode_P2 stream img :
  decode "P2" stream img
  = ('(_, data) ← pixel_rows (_width img) (_height img) p2_pixel (stream, _data img);
     Returned (mk_image data (_width img) (_height img) (_max_value img))).
Proof. reflexivity. Qed.

Lemma decode_P1 stream img :
  decode "P1" stream img
  = ('(_, data) ← pixel_rows (_width img) (_height img) p1_pixel (stream, _data img);
     Returned (mk_image data (_width img) (_height img) (_max_value img))).
Proof. reflexivity. Qed.

Lemma decode_P4 stream img :
  decode "P4" stream img
  = ('(_, data) ← bit_rows (_width img) (_height img) (skip_space stream, _data img);
     Returned (mk_image data (_width img) (_height img) (_max_value img))).
Proof. reflexivity. Qed.

(** The whole of a P5 load on a well-formed header. *)
Lemma p5_load h tail img :
  well_formed h = true -> h_magic h = "P5"%string -> ends_number tail = true ->
  decimal (h_max h) <= 255 ->
  decimal (h_width h) * decimal (h_height h) < 2 ^ 32 ->
  LoadImage (Some (header_text h ++ tail)) img
  = Returned (true,
      mk_image
        ((uchar_of <$> take (Z.to_nat (decimal (h_width h) * decimal (h_height h)))
                         (skipws tail))
         ++ drop (length (skipws tail))
              (resize (Z.to_nat (decimal (h_width h) * decimal (h_height h))) 0
                 (_data img)))
        (decimal (h_width h)) (decimal (h_height h)) (decimal (h_max h))).
Proof.
  intros Hwf Hm Ht Hmax Hwh.
  destruct (well_formed_dimensions h Hwf) as [HW HH].
  rewrite LoadImage_header by done.
  replace (255 <? decimal (h_max h)) with false by (symmetry; apply Z.ltb_ge; lia).
  rewrite stream_at_small by done. rewrite Hm.
  unfold decode_and_return. rewrite decode_P5. unfold after_header.
  cbn [_width _height _data _max_value]. rewrite wrap32_small by nia.
  set (N := Z.to_nat (decimal (h_width h) * decimal (h_height h))).
  destruct (pixel_rows_exact avail_bytes uchar_of id p5_pixel
              (decimal (h_width h)) (decimal (h_height h))
              (skip_space (mk_istream tail (is_nil tail) false))
              (resize N 0 (_data img)))
    as (st' & ->); [apply p5_pixel_reads|done..|by rewrite length_resize|].
  rewrite skip_space_avail, length_resize, list_fmap_id. cbn.
  by rewrite Z.min_l by (unfold USHRT_MAX; lia).
Qed.

End Exact.

(** X5: a P5 load on a well-formed header (max-value at most 255, product
    of the dimensions below 2^32) returns true with exactly this buffer: the
    first W*H bytes that follow the whitespace behind the header, and, where
    those bytes run out, the entries that [resize] left there: those of the
    image as it was, or 0 beyond them. *)
Theorem p5_load_buffer h tail img :
  well_formed h = true -> h_magic h = "P5"%string -> ends_number tail = true ->
  decimal (h_max h) <= 255 ->
  let W := decimal (h_width h) in
  let H := decimal (h_height h) in
  let pix := skipws tail in
  W * H < 2 ^ 32 ->
  exists img',
    LoadImage (Some (header_text h ++ tail)) img = Returned (true, img')
    /\ _data img'
       = (uchar_of <$> take (Z.to_nat (W * H)) pix)
         ++ drop (length pix) (resize (Z.to_nat (W * H)) 0 (_data img)).
Proof.
  intros Hwf Hm Ht Hmax W H pix Hwh. eexists. split; [by apply p5_load|done].
Qed.

Lemma p5_load_buffer_witness :
  let h := mk_header "P5" None [] (text "2") (text " ") (text "2") [newline]
             (text "255") in
  let tail := newline :: text "ab" in
  well_formed h = true /\ h_magic h = "P5"%string /\ ends_number tail = true
  /\ decimal (h_max h) <= 255
  /\ decimal (h_width h) * decimal (h_height h) < 2 ^ 32
  /\ exists img',
       LoadImage (Some (lines ["P5"; "2 2"; "255"]%string ++ text "ab"))
         (mk_image [1; 2; 3] 3 1 255)
       = Returned (true, img')
       /\ _data img' = [97; 98; 3; 0].
Proof.
  intros h tail.
  split; [reflexivity|]. split; [reflexivity|]. split; [reflexivity|].
  split; [discriminate|]. split; [reflexivity|].
  exact (p5_load_buffer h tail (mk_image [1; 2; 3] 3 1 255) eq_refl eq_refl eq_refl
           ltac:(discriminate) eq_refl).
Defined.

(** X13: a P5 load that finds all its W*H bytes does not depend on what the
    image held before: it gives the same result on any two images. *)
Theorem complete_p5_load_forgets_old_image h tail img1 img2 :
  well_formed h = true -> h_magic h = "P5"%string -> ends_number tail = true ->
  decimal (h_max h) <= 255 ->
  decimal (h_width h) * decimal (h_height h) < 2 ^ 32 ->
  decimal (h_width h) * decimal (h_height h) <= Z.of_nat (length (skipws tail)) ->
  LoadImage (Some (header_text h ++ tail)) img1
  = LoadImage (Some (header_text h ++ tail)) img2.
Proof.
  intros Hwf Hm Ht Hmax Hwh Hlen. rewrite !p5_load by done.
  by rewrite !drop_ge by (rewrite length_resize; lia).
Qed.

Lemma complete_p5_load_forgets_old_image_witness :
  let h := mk_header "P5" None [] (text "2") (text " ") (text "1") [newline]
             (text "255") in
  let tail := newline :: text "ab" in
  well_formed h = true /\ h_magic h = "P5"%string /\ ends_number tail = true
  /\ decimal (h_max h) <= 255
  /\ decimal (h_width h) * decimal (h_height h) < 2 ^ 32
  /\ decimal (h_width h) * decimal (h_height h) <= Z.of_nat (length (skipws tail))
  /\ LoadImage (Some (header_text h ++ tail)) GraymapImage_new
     = LoadImage (Some (header_text h ++ tail)) (mk_image [1; 2; 3; 4] 2 2 9).
Proof.
  intros h tail.
  split; [reflexivity|]. split; [reflexivity|]. split; [reflexivity|].
  split; [discriminate|]. split; [reflexivity|]. split; [discriminate|].
  exact (complete_p5_load_forgets_old_image h tail GraymapImage_new
           (mk_image [1; 2; 3; 4] 2 2 9) eq_refl eq_refl eq_refl
           ltac:(discriminate) eq_refl ltac:(discriminate)).
Defined.

(** X6: a P2 load on a well-formed header (max-value at most 255, product
    of the dimensions below 2^32) returns true with exactly this buffer: the
    character codes of the first W*H characters behind the header that are
    not whitespace, one entry per character whatever the digits spell, and,
    where the characters run out, the entries that [resize] left there. *)
Theorem p2_load_buffer h tail img :
  well_formed h = true -> h_magic h = "P2"%string -> ends_number tail = true ->
  decimal (h_max h) <= 255 ->
  let W := decimal (h_width h) in
  let H := decimal (h_height h) in
  let chars := List.filter nonspace tail in
  W * H < 2 ^ 32 ->
  exists img',
    LoadImage (Some (header_text h ++ tail)) img = Returned (true, img')
    /\ _data img'
       = (uchar_of <$> take (Z.to_nat (W * H)) chars)
         ++ drop (length chars) (resize (Z.to_nat (W * H)) 0 (_data img)).
Proof.
  intros Hwf Hm Ht Hmax W H chars Hwh.
  destruct (well_formed_dimensions h Hwf) as [HW HH]. fold W in HW. fold H in HH.
  rewrite LoadImage_header by done.
  replace (255 <? decimal (h_max h)) with false by (symmetry; apply Z.ltb_ge; lia).
  rewrite stream_at_small by done. rewrite Hm.
  unfold decode_and_return. rewrite decode_P2. unfold after_header.
  cbn [_width _height _data _max_value]. fold W H. rewrite wrap32_small by nia.
  destruct (pixel_rows_exact avail_chars uchar_of id p2_pixel W H
              (mk_istream tail (is_nil tail) false)
              (resize (Z.to_nat (W * H)) 0 (_data img)))
    as (st' & ->); [apply p2_pixel_reads|done..|by rewrite length_resize|].
  rewrite avail_chars_after_header, length_resize, list_fmap_id.
  eexists. split; [done|]. done.
Qed.

Lemma p2_load_buffer_witness :
  let h := mk_header "P2" None [] (text "3") (text " ") (text "2") [newline]
             (text "255") in
  let tail := newline :: text "10 200" ++ [newline] in
  well_formed h = true /\ h_magic h = "P2"%string /\ ends_number tail = true
  /\ decimal (h_max h) <= 255
  /\ decimal (h_width h) * decimal (h_height h) < 2 ^ 32
  /\ exists img',
       LoadImage (Some (lines ["P2"; "3 2"; "255"; "10 200"]%string))
         GraymapImage_new
       = Returned (true, img')
       /\ _data img' = [49; 48; 50; 48; 48; 0].
Proof.
  intros h tail.
  split; [reflexivity|]. split; [reflexivity|]. split; [reflexivity|].
  split; [discriminate|]. split; [reflexivity|].
  exact (p2_load_buffer h tail GraymapImage_new eq_refl eq_refl eq_refl
           ltac:(discriminate) eq_refl).
Defined.

(** X7: a P1 load on a well-formed header, whose third number the loader
    takes for a max-value (at most 255; product of the dimensions below
    2^32), returns true with exactly this buffer: for each of the first W*H
    characters behind that number that are not whitespace, its character
    code times 255 modulo 256, and, where the characters run out, the entries
    that [resize] left there, times 255 modulo 256. *)
Theorem p1_load_buffer h tail img :
  well_formed h = true -> h_magic h = "P1"%string -> ends_number tail = true ->
  decimal (h_max h) <= 255 ->
  let W := decimal (h_width h) in
  let H := decimal (h_height h) in
  let chars := List.filter nonspace tail in
  W * H < 2 ^ 32 ->
  exists img',
    LoadImage (Some (header_text h ++ tail)) img = Returned (true, img')
    /\ _data img'
       = ((fun c => times_255 (uchar_of c)) <$> take (Z.to_nat (W * H)) chars)
         ++ (times_255
               <$> drop (length chars) (resize (Z.to_nat (W * H)) 0 (_data img))).
Proof.
  intros Hwf Hm Ht Hmax W H chars Hwh.
  destruct (well_formed_dimensions h Hwf) as [HW HH]. fold W in HW. fold H in HH.
  rewrite LoadImage_header by done.
  replace (255 <? decimal (h_max h)) with false by (symmetry; apply Z.ltb_ge; lia).
  rewrite stream_at_small by done. rewrite Hm.
  unfold decode_and_return. rewrite decode_P1. unfold after_header.
  cbn [_width _height _data _max_value]. fold W H. rewrite wrap32_small by nia.
  destruct (pixel_rows_exact avail_chars (fun c => times_255 (uchar_of c)) times_255
              p1_pixel W H (mk_istream tail (is_nil tail) false)
              (resize (Z.to_nat (W * H)) 0 (_data img)))
    as (st' & ->); [apply p1_pixel_reads|done..|by rewrite length_resize|].
  rewrite avail_chars_after_header, length_resize.
  eexists. split; [done|]. done.
Qed.

Lemma p1_load_buffer_witness :
  let h := mk_header "P1" None [] (text "2") (text " ") (text "2") [newline]
             (text "1") in
  let tail := text " 0 0 1" ++ [newline] in
  well_formed h = true /\ h_magic h = "P1"%string /\ ends_number tail = true
  /\ decimal (h_max h) <= 255
  /\ decimal (h_width h) * decimal (h_height h) < 2 ^ 32
  /\ exists img',
       LoadImage (Some (lines ["P1"; "2 2"; "1 0 0 1"]%string))
         (mk_image [1; 1; 1; 1] 2 2 255)
       = Returned (true, img')
       /\ _data img' = [208; 208; 207; 255].
Proof.
  intros h tail.
  split; [reflexivity|]. split; [reflexivity|]. split; [reflexivity|].
  split; [discriminate|]. split; [reflexivity|].
  exact (p1_load_buffer h tail (mk_image [1; 1; 1; 1] 2 2 255) eq_refl eq_refl
           eq_refl ltac:(discriminate) eq_refl).
Defined.

Section AnyWidth.

(** The bit loop with its test of the index: inside the buffer it writes
    the bits from the highest down at consecutive entries, outside it writes
    nothing, and it touches nothing else. *)
Lemma p4_bits_lookup_bounded n k i j W temp d m :
  0 <= i + j * W -> 0 <= k ->
  i + j * W + k + Z.of_nat n <= 2 ^ 32 ->
  p4_bits n k i j W temp d !! m
  = if decide (i + j * W + k <= Z.of_nat m < i + j * W + k + Z.of_nat n
               /\ (m < length d)%nat)
    then Some (pixel_of_bit temp (7 - (Z.of_nat m - (i + j * W))))
    else d !! m.
Proof.
  revert k d. induction n as [|n IH]; intros k d Hb Hk Hw.
  - cbn [p4_bits]. case_decide; [lia|done].
  - cbn [p4_bits]. replace (i + k + j * W) with (i + j * W + k) by lia.
    rewrite wrap32_small by lia.
    destruct (Z.leb_spec (Z.of_nat (length d)) (i + j * W + k)) as [Hout|Hin].
    + case_decide; [lia|done].
    + rewrite IH by lia. rewrite length_insert.
      destruct (decide (Z.of_nat m = i + j * W + k)) as [E|E].
      * rewrite decide_False by lia. rewrite decide_True by lia.
        replace (Z.to_nat (i + j * W + k)) with m by lia.
        rewrite list_lookup_insert_eq by lia. do 2 f_equal. lia.
      * rewrite list_lookup_insert_ne by lia.
        case_decide; case_decide; done || lia.
Qed.

(** An invariant indexed by the row and by the turn inside the row. *)
Lemma rows_invariant2 {S : Type} (I : nat -> nat -> S -> Prop) step rows cols
    (body : Z -> Z -> S -> outcome S) s :
  I 0%nat 0%nat s ->
  (forall j k s, (j < rows)%nat -> (k < cols)%nat -> I j k s ->
     exists s', body (Z.of_nat j) (step * Z.of_nat k) s = Returned s'
                /\ I j (k + 1)%nat s') ->
  (forall j s, (j < rows)%nat -> I j cols s -> I (j + 1)%nat 0%nat s) ->
  exists s', for_loop 1 rows 0 (fun j => for_loop step cols 0 (body j)) s = Returned s'
             /\ I rows 0%nat s'.
Proof.
  intros H0 Hstep Hrow.
  apply (for_loop_invariant (fun j => I j 0%nat)); [done|].
  intros j s1 Hj HI. replace (0 + 1 * Z.of_nat j) with (Z.of_nat j) by lia.
  destruct (for_loop_invariant (I j) step cols 0 (body (Z.of_nat j)) s1)
    as (s' & E & I'); [done| |].
  - intros k s2 Hk HI2. destruct (Hstep j k s2 Hj Hk HI2) as (s3 & E3 & I3).
    exists s3. split; [done|]. by replace (Datatypes.S k) with (k + 1)%nat by lia.
  - exists s'. split; [done|].
    replace (Datatypes.S j) with (j + 1)%nat by lia. by apply Hrow.
Qed.

Lemma bytes_per_row_bounds W :
  0 <= W -> W <= 8 * bytes_per_row W < W + 8.
Proof.
  intros H. unfold bytes_per_row.
  pose proof (Z.div_mod (W + 7) 8). pose proof (Z.mod_pos_bound (W + 7) 8). lia.
Qed.

Lemma bit_pixel_of_bit x byte :
  0 <= x mod 8 < 8 ->
  pixel_of_bit (uchar_of byte) (7 - x mod 8) = bit_pixel x byte.
Proof. intros H. unfold bit_pixel. by rewrite pixel_of_bit_testbit by lia. Qed.

Lemma p4_byte_aligned pix W H j k s :
  0 < W -> 0 <= H -> W * H <= 2 ^ 32 - 8 ->
  H * bytes_per_row W <= Z.of_nat (length pix) ->
  (j < Z.to_nat H)%nat -> (k < Z.to_nat (bytes_per_row W))%nat ->
  aligned pix W (bytes_per_row W) (Z.to_nat (W * H)) j k s ->
  exists s', p4_byte W (Z.of_nat j) (8 * Z.of_nat k) s = Returned s'
             /\ aligned pix W (bytes_per_row W) (Z.to_nat (W * H)) j (k + 1) s'.
Proof.
  destruct s as [st d]. intros HW HH Hwh Hpix Hj Hk (Hav & Hlen & Hd).
  cbn [fst snd] in *. pose proof (bytes_per_row_bounds W ltac:(lia)) as Hc.
  set (c := bytes_per_row W) in *. unfold p4_byte.
  assert (Hb : (j * Z.to_nat c + k < length pix)%nat) by nia.
  destruct (lookup_lt_is_Some_2 pix _ Hb) as [byte Hbyte].
  rewrite (drop_S _ _ _ Hbyte) in Hav.
  destruct (read_avail_cons st byte _ 0 Hav) as (st' & -> & Hav').
  eexists. split; [done|]. repeat split; cbn [fst snd].
  - rewrite Hav'. f_equal. lia.
  - by rewrite p4_bits_length.
  - intros x y Hx Hy Hcov. rewrite p4_bits_lookup_bounded by nia.
    rewrite Z2Nat.id by nia.
    destruct (decide (y = Z.of_nat j /\ 8 * Z.of_nat k <= x)) as [[-> Hx8]|Hold].
    + rewrite decide_True by nia.
      assert (Hq : x / 8 = Z.of_nat k)
        by (symmetry; apply (Z.div_unique _ _ _ (x - 8 * Z.of_nat k)); lia).
      assert (Hr : x mod 8 = x - 8 * Z.of_nat k)
        by (symmetry; apply (Z.mod_unique _ _ (Z.of_nat k)); lia).
      rewrite Hq. replace (Z.to_nat (Z.of_nat j * c + Z.of_nat k))
        with (j * Z.to_nat c + k)%nat by nia.
      rewrite Hbyte. cbn. f_equal. rewrite <- bit_pixel_of_bit by lia.
      f_equal. lia.
    + rewrite decide_False by nia. apply Hd; [done..|]. lia.
Qed.

Lemma bit_rows_aligned pix W H s :
  0 < W <= 2 ^ 32 - 8 -> 0 <= H -> W * H <= 2 ^ 32 - 8 ->
  H * bytes_per_row W <= Z.of_nat (length pix) ->
  aligned pix W (bytes_per_row W) (Z.to_nat (W * H)) 0 0 s ->
  exists s', bit_rows W H s = Returned s'
             /\ aligned pix W (bytes_per_row W) (Z.to_nat (W * H)) (Z.to_nat H) 0 s'.
Proof.
  intros HW HH Hwh Hpix H0. unfold bit_rows, for_each, for_each_8.
  replace (2 ^ 32 - 8 <? W) with false by (symmetry; apply Z.ltb_ge; lia).
  fold (bytes_per_row W).
  apply (rows_invariant2 (aligned pix W (bytes_per_row W) (Z.to_nat (W * H))) 8
           (Z.to_nat H) (Z.to_nat (bytes_per_row W)) (fun j i => p4_byte W j i));
    [done| |].
  - intros j k s1 Hj Hk HI. by apply (p4_byte_aligned pix W H); try lia.
  - intros j [st d] Hj (Hav & Hlen & Hd). pose proof (bytes_per_row_bounds W ltac:(lia)).
    repeat split; cbn [fst snd] in *.
    + rewrite Hav. f_equal. lia.
    + done.
    + intros x y Hx Hy Hcov. apply Hd; [done..|]. lia.
Qed.

End AnyWidth.

(** X8: the P4 decoder starts every row on a fresh byte, whatever the
    width. On a well-formed header that carries a max-value token (at most
    255), with 0 < W <= 2^32 - 8, W*H <= 2^32 - 8 and at least
    H * ceil(W/8) bytes behind the whitespace after the header, [LoadImage]
    returns true and the pixel (x, y) is bit [7 - x mod 8] of byte
    [y * ceil(W/8) + x / 8], as 0 or 255: the bits that pad the last byte of
    a row are written into the next row and overwritten by that row's own
    first byte. *)
Theorem p4_rows_start_on_a_byte h tail img :
  well_formed h = true -> h_magic h = "P4"%string -> ends_number tail = true ->
  decimal (h_max h) <= 255 ->
  let W := decimal (h_width h) in
  let H := decimal (h_height h) in
  let pix := skipws tail in
  0 < W <= 2 ^ 32 - 8 -> W * H <= 2 ^ 32 - 8 ->
  H * bytes_per_row W <= Z.of_nat (length pix) ->
  exists img',
    LoadImage (Some (header_text h ++ tail)) img = Returned (true, img')
    /\ forall x y, 0 <= x < W -> 0 <= y < H ->
         GetPixel img' x y
         = bit_pixel x <$> pix !! Z.to_nat (y * bytes_per_row W + x / 8).
Proof.
  intros Hwf Hm Ht Hmax W H pix HW Hwh Hlen.
  destruct (well_formed_dimensions h Hwf) as [_ HH]. fold H in HH.
  rewrite LoadImage_header by done.
  replace (255 <? decimal (h_max h)) with false by (symmetry; apply Z.ltb_ge; lia).
  rewrite stream_at_small by done. rewrite Hm.
  unfold decode_and_return. rewrite decode_P4. unfold after_header.
  cbn [_width _height _data _max_value]. fold W H. rewrite wrap32_small by nia.
  destruct (bit_rows_aligned pix W H
              (skip_space (mk_istream tail (is_nil tail) false),
               resize (Z.to_nat (W * H)) 0 (_data img)))
    as ([st d] & -> & Hav & Hd & Hpix); [done..| |].
  - repeat split; cbn [fst snd].
    + by rewrite skip_space_avail.
    + by rewrite length_resize.
    + intros x y Hx Hy Hcov. lia.
  - cbn [fst snd] in *. eexists. split; [reflexivity|].
    intros x y Hx Hy. unfold GetPixel. cbn [_width _data].
    rewrite wrap32_small by nia. apply Hpix; [done|lia|lia].
Qed.

Lemma p4_rows_start_on_a_byte_witness :
  let h := mk_header "P4" None [] (text "3") (text " ") (text "2") [newline]
             (text "1") in
  let tail := [newline; "160"; "064"]%char in
  well_formed h = true /\ h_magic h = "P4"%string /\ ends_number tail = true
  /\ decimal (h_max h) <= 255
  /\ 0 < decimal (h_width h) <= 2 ^ 32 - 8
  /\ decimal (h_width h) * decimal (h_height h) <= 2 ^ 32 - 8
  /\ decimal (h_height h) * bytes_per_row (decimal (h_width h))
     <= Z.of_nat (length (skipws tail))
  /\ exists img',
       LoadImage (Some (header_text h ++ tail)) GraymapImage_new
       = Returned (true, img')
       /\ forall x y, 0 <= x < decimal (h_width h) -> 0 <= y < decimal (h_height h) ->
            GetPixel img' x y
            = bit_pixel x
              <$> skipws tail
                  !! Z.to_nat (y * bytes_per_row (decimal (h_width h)) + x / 8).
Proof.
  intros h tail.
  split; [reflexivity|]. split; [reflexivity|]. split; [reflexivity|].
  split; [discriminate|]. split; [split; [reflexivity|discriminate]|].
  split; [discriminate|]. split; [discriminate|].
  apply (p4_rows_start_on_a_byte h tail GraymapImage_new);
    [reflexivity|reflexivity|reflexivity|discriminate
    |split; [reflexivity|discriminate]|discriminate|discriminate].
Defined.

(** The image of the witness above: rows 101 and 010 from the bytes
    0b10100000 and 0b01000000. *)
Example p4_3x2_rows :
  LoadImage (Some (lines ["P4"; "3 2"; "1"]%string ++ ["160"; "064"]%char))
    GraymapImage_new
  = Returned (true, mk_image [255; 0; 255; 0; 255; 0] 3 2 1).
Proof. reflexivity. Qed.

Section Bilevel.

Lemma pixel_of_bit_bilevel temp shift : 0 <= shift -> bilevel (pixel_of_bit temp shift).
Proof.
  intros H. rewrite pixel_of_bit_testbit by done. unfold bilevel.
  destruct (Z.testbit temp shift); auto.
Qed.

Lemma p4_bits_bilevel n k i j W temp d :
  0 <= k -> k + Z.of_nat n <= 8 ->
  Forall bilevel d -> Forall bilevel (p4_bits n k i j W temp d).
Proof.
  revert k d. induction n as [|n IH]; intros k d Hk Hn Hd; [done|]. cbn [p4_bits].
  destruct (Z.of_nat (length d) <=? wrap32 (i + k + j * W)); [done|].
  apply IH; [lia|lia|]. apply Forall_insert; [done|].
  apply pixel_of_bit_bilevel. lia.
Qed.

Lemma bit_rows_bilevel W H s s' :
  bit_rows W H s = Returned s' -> Forall bilevel s.2 -> Forall bilevel s'.2.
Proof.
  intros E Hs. revert E. unfold bit_rows, for_each.
  apply (for_loop_preserves (fun s' : decoder_state => Forall bilevel s'.2)); [|done].
  intros j s1 s2 H1. unfold for_each_8. destruct (2 ^ 32 - 8 <? W); [done|].
  apply (for_loop_preserves (fun s' : decoder_state => Forall bilevel s'.2)); [|done].
  intros i [st d] s4 H3. unfold p4_byte. destruct (read st 0) as [temp st'].
  intros E. assert (s4 = (st', p4_bits 8 0 i j W temp d)) as -> by congruence.
  cbn [snd] in *. by apply p4_bits_bilevel.
Qed.

End Bilevel.

(** X9: whatever a file whose first line is "P4" contains, when its load
    into a default-constructed image returns true every entry of the buffer
    is 0 or 255. *)
Theorem p4_pixels_are_0_or_255 file img' :
  (getline (ifstream file) EmptyString).1 = "P4"%string ->
  LoadImage file GraymapImage_new = Returned (true, img') ->
  Forall bilevel (_data img').
Proof.
  unfold LoadImage.
  destruct (getline (ifstream file) EmptyString) as [fmt infile]. cbn [fst].
  intros ->. change (bad_magic "P4") with false. cbv iota.
  rewrite max_value_guard_true. unfold read_dimensions, read_max_value.
  destruct (extract_unsigned UINT_MAX _ _) as [w s1].
  destruct (extract_unsigned UINT_MAX s1 _) as [h s2].
  cbn [_max_value _data _width _height GraymapImage_new].
  destruct (extract_unsigned USHRT_MAX s2 255) as [m s3].
  cbn [_max_value]. destruct (255 <? m); [done|].
  unfold decode_and_return. rewrite decode_P4. cbn [_width _height _data _max_value].
  destruct (bit_rows w h _) as [[st d]| |] eqn:E; [|done..].
  cbn. intros [= <-]. cbn [_data].
  apply (bit_rows_bilevel _ _ _ _ E). cbn [snd].
  rewrite resize_nil. apply Forall_replicate. by left.
Qed.

Lemma p4_pixels_are_0_or_255_witness :
  let file := Some (lines ["P4"; "9 2"; "7"]%string ++ text "Netpbm") in
  let img' := mk_image [0; 255; 0; 0; 255; 255; 255; 0; 0; 0; 255; 255; 255; 0;
                        255; 0; 0; 0] 9 2 7 in
  (getline (ifstream file) EmptyString).1 = "P4"%string
  /\ LoadImage file GraymapImage_new = Returned (true, img')
  /\ Forall bilevel (_data img').
Proof.
  intros file img'. split; [reflexivity|]. split; [reflexivity|].
  exact (p4_pixels_are_0_or_255 file img' eq_refl eq_refl).
Defined.

Section OutOfRange.

(** A loop whose body reaches an out-of-range subscript at turn [k0], after
    turns that all return, is undefined. *)
Lemma for_loop_undefined {S : Type} (I : nat -> S -> Prop) step n lo
    (body : Z -> S -> outcome S) s k0 :
  (k0 < n)%nat -> I 0%nat s ->
  (forall k s, (k < k0)%nat -> I k s ->
     exists s', body (lo + step * Z.of_nat k) s = Returned s' /\ I (Datatypes.S k) s') ->
  (forall s, I k0 s -> body (lo + step * Z.of_nat k0) s = Undefined) ->
  for_loop step n lo body s = Undefined.
Proof.
  revert I lo s k0. induction n as [|n IH]; intros I lo s k0 Hk H0 Hstep Hund; [lia|].
  cbn [for_loop]. destruct k0 as [|k0].
  - specialize (Hund s H0). rewrite Z.mul_0_r, Z.add_0_r in Hund. by rewrite Hund.
  - destruct (Hstep 0%nat s) as (s1 & E1 & I1); [lia|done|].
    rewrite Z.mul_0_r, Z.add_0_r in E1. rewrite E1.
    apply (IH (fun k => I (Datatypes.S k)) (lo + step) s1 k0); [lia|done| |].
    + intros k s2 Hk2 HI. destruct (Hstep (Datatypes.S k) s2) as (s3 & E3 & I3); [lia|done|].
      exists s3. split; [|done]. rewrite <- E3. f_equal. lia.
    + intros s2 HI. rewrite <- (Hund s2 HI). f_equal. lia.
Qed.

Lemma row_major_index_small W i j :
  0 <= i -> 0 <= j * W -> j * W + i < 2 ^ 32 ->
  wrap32 (i + wrap32 (j * W)) = j * W + i.
Proof.
  intros Hi Hj Hs. rewrite (wrap32_small (j * W)) by lia.
  rewrite wrap32_small by lia. lia.
Qed.

(** With fewer entries than the loops visit, the loops of a subscripting
    statement reach the first index behind the buffer. *)
Lemma pixel_rows_undefined pixel W H st d :
  subscripts pixel -> 0 < W -> 0 <= H ->
  Z.of_nat (length d) < W * H -> Z.of_nat (length d) < 2 ^ 32 ->
  pixel_rows W H pixel (st, d) = Undefined.
Proof.
  intros Hpixel HW HH Hsize Hsmall. unfold pixel_rows, for_each.
  set (size := Z.of_nat (length d)) in *.
  assert (Hq : 0 <= size / W) by (apply Z.div_pos; lia).
  pose proof (Z.div_mod size W ltac:(lia)) as Hdm.
  pose proof (Z.mod_pos_bound size W ltac:(lia)) as Hr.
  assert (Hj0 : size / W < H) by nia.
  assert (Hbody : forall (j i : nat) (s : decoder_state),
            Z.of_nat j * W + Z.of_nat i < size -> length s.2 = length d ->
            exists s', pixel (wrap32 (1 * Z.of_nat i + wrap32 (Z.of_nat j * W))) s
                       = Returned s' /\ length s'.2 = length d).
  { intros j i [st1 d1] Hlt Hlen. cbn [snd] in Hlen.
    rewrite row_major_index_small by nia.
    specialize (Hpixel (Z.of_nat j * W + 1 * Z.of_nat i) st1 d1).
    destruct (lookup_lt_is_Some_2 d1 (Z.to_nat (Z.of_nat j * W + 1 * Z.of_nat i)))
      as [old Hold]; [unfold size in *; lia|].
    rewrite Hold in Hpixel. destruct Hpixel as (s' & E & Hlen').
    exists s'. split; [done|]. by rewrite Hlen'. }
  apply (for_loop_undefined (fun (_ : nat) (s : decoder_state) => length s.2 = length d)
           1 (Z.to_nat H) 0 _ (st, d) (Z.to_nat (size / W))); [lia|done| |].
  - intros j s Hj Hlen. replace (0 + 1 * Z.of_nat j) with (Z.of_nat j) by lia.
    apply (for_loop_invariant (fun (_ : nat) (s : decoder_state) => length s.2 = length d));
      [done|].
    intros i s1 Hi Hlen1. rewrite Z.add_0_l. apply Hbody; [nia|done].
  - intros s Hlen.
    replace (0 + 1 * Z.of_nat (Z.to_nat (size / W))) with (size / W) by lia.
    apply (for_loop_undefined (fun (_ : nat) (s : decoder_state) => length s.2 = length d)
             1 (Z.to_nat W) 0 _ s (Z.to_nat (size mod W))); [lia|done| |].
    + intros i s1 Hi Hlen1. rewrite Z.add_0_l.
      replace (size / W) with (Z.of_nat (Z.to_nat (size / W))) by lia.
      apply Hbody; [nia|done].
    + intros [st1 d1] Hlen1. cbn [snd] in Hlen1. rewrite Z.add_0_l.
      rewrite row_major_index_small by nia.
      specialize (Hpixel (size / W * W + 1 * Z.of_nat (Z.to_nat (size mod W))) st1 d1).
      rewrite lookup_ge_None_2 in Hpixel by (unfold size in *; nia). done.
Qed.

End OutOfRange.

(** X10: the product of the dimensions is taken modulo 2^32 for the size
    of the buffer but not for the loops. On a well-formed P1, P2 or P5 header
    (max-value at most 255) whose width times height is 2^32 or more,
    [LoadImage] subscripts [_data] out of range, whatever the pixel data and
    whatever the image held. *)
Theorem wrapped_product_subscripts_out_of_range h tail img :
  well_formed h = true -> ends_number tail = true ->
  h_magic h = "P1"%string \/ h_magic h = "P2"%string \/ h_magic h = "P5"%string ->
  decimal (h_max h) <= 255 ->
  2 ^ 32 <= decimal (h_width h) * decimal (h_height h) ->
  LoadImage (Some (header_text h ++ tail)) img = Undefined.
Proof.
  intros Hwf Ht Hm Hmax Hwh.
  destruct (well_formed_dimensions h Hwf) as [HW HH].
  rewrite LoadImage_header by done.
  replace (255 <? decimal (h_max h)) with false by (symmetry; apply Z.ltb_ge; lia).
  unfold decode_and_return, after_header.
  set (W := decimal (h_width h)) in *. set (H := decimal (h_height h)) in *.
  assert (Hsize : 0 <= wrap32 (W * H) < 2 ^ 32) by (apply Z.mod_pos_bound; lia).
  assert (Hund : forall pixel st, subscripts pixel ->
            pixel_rows W H pixel (st, resize (Z.to_nat (wrap32 (W * H))) 0 (_data img))
            = Undefined).
  { intros pixel st Hpixel. apply pixel_rows_undefined; [done|nia|done|..];
      rewrite length_resize; lia. }
  destruct Hm as [-> | [-> | ->]].
  - rewrite decode_P1. cbn [_width _height _data]. by rewrite Hund by apply p1_pixel_subscripts.
  - rewrite decode_P2. cbn [_width _height _data]. by rewrite Hund by apply p2_pixel_subscripts.
  - rewrite decode_P5. cbn [_width _height _data]. by rewrite Hund by apply p5_pixel_subscripts.
Qed.

Lemma wrapped_product_subscripts_out_of_range_witness :
  let h := mk_header "P5" None [] (text "65536") (text " ") (text "65537") [newline]
             (text "255") in
  let tail := newline :: text "abcdef" in
  well_formed h = true /\ ends_number tail = true
  /\ (h_magic h = "P1"%string \/ h_magic h = "P2"%string \/ h_magic h = "P5"%string)
  /\ decimal (h_max h) <= 255
  /\ 2 ^ 32 <= decimal (h_width h) * decimal (h_height h)
  /\ LoadImage (Some (header_text h ++ tail)) GraymapImage_new = Undefined.
Proof.
  intros h tail.
  split; [reflexivity|]. split; [reflexivity|]. split; [by right; right|].
  split; [discriminate|]. split; [discriminate|].
  apply (wrapped_product_subscripts_out_of_range h tail GraymapImage_new);
    [reflexivity|reflexivity|by right; right|discriminate|discriminate].
Defined.

Section BrokenHeaders.

Lemma good_setstate_fail s : good (setstate_fail s) = false.
Proof. unfold good, setstate_fail. cbn. apply andb_false_r. Qed.

(** The stream that the extractions start from, for any content behind the
    magic number's line. *)
Lemma stream_behind_magic cmt rest :
  match cmt with Some t => one_line t | None => true end = true ->
  starts_data cmt rest = true ->
  insert_rdbuf (skip_comment (mk_istream (comment_text cmt ++ rest) false false))
  = mk_istream rest false (is_nil rest).
Proof.
  intros Hc Hs. destruct cmt as [t|].
  - unfold skip_comment, peek, sentry, getline, sentry. cbn.
    rewrite <- app_assoc. cbn [app]. rewrite split_line_app by done. reflexivity.
  - destruct rest as [|c r]; [done|]. cbn in Hs. apply negb_true_iff in Hs.
    unfold skip_comment, peek, sentry. cbn. by rewrite Hs.
Qed.

Lemma LoadImage_behind_magic m cmt rest img :
  is_magic m = true ->
  match cmt with Some t => one_line t | None => true end = true ->
  starts_data cmt rest = true ->
  LoadImage (Some (text m ++ [newline] ++ comment_text cmt ++ rest)) img
  = (let '(stream, img1) :=
       read_dimensions (mk_istream rest false (is_nil rest)) img in
     let '(stream, img2) := read_max_value stream img1 in
     if 255 <? _max_value img2 then Returned (false, img2)
     else decode_and_return m stream img2).
Proof.
  intros Hm Hc Hs. unfold LoadImage. cbn [app].
  rewrite getline_magic, is_magic_not_bad by done.
  rewrite stream_behind_magic by done.
  destruct (read_dimensions _ img) as [stream img1].
  by rewrite max_value_guard_true.
Qed.

(** A token that cannot start a number: the extraction stores 0 and fails
    without consuming it. *)
Lemma extract_unsigned_not_a_number max ws c r old :
  all_space ws = true -> isspace c = false -> starts_number c = false ->
  extract_unsigned max (mk_istream (ws ++ c :: r) false false) old
  = (0, mk_istream (c :: r) false true).
Proof.
  intros Hws Hc Hn. unfold extract_unsigned, sentry. cbn [good eofbit failbit negb andb rdbuf].
  rewrite skipws_app, skipws_head by done. unfold with_rdbuf. cbn [rdbuf eofbit failbit].
  unfold starts_number in Hn.
  apply orb_false_iff in Hn as [Hn Hminus]. apply orb_false_iff in Hn as [Hd Hplus].
  unfold num_get_unsigned. rewrite Hminus, Hplus. cbn [scan_digits]. by rewrite Hd.
Qed.

(** Nothing but whitespace: the extraction stores nothing. *)
Lemma extract_unsigned_blank max ws old :
  all_space ws = true ->
  exists s', extract_unsigned max (mk_istream ws false (is_nil ws)) old = (old, s')
             /\ good s' = false.
Proof.
  intros Hws. unfold extract_unsigned, sentry. destruct ws as [|c ws].
  - cbn. by eexists.
  - cbn [good eofbit failbit is_nil negb andb rdbuf].
    rewrite <- (app_nil_r (c :: ws)), skipws_app by done. cbn. by eexists.
Qed.

Lemma read_dimensions_not_good stream img :
  good stream = false ->
  exists stream',
    read_dimensions stream img
    = (stream', mk_image (resize (Z.to_nat (wrap32 (_width img * _height img))) 0
                            (_data img))
                  (_width img) (_height img) (_max_value img))
    /\ good stream' = false.
Proof.
  intros Hg. unfold read_dimensions.
  rewrite extract_unsigned_not_good by done.
  rewrite extract_unsigned_not_good by apply good_setstate_fail.
  eexists. split; [done|]. apply good_setstate_fail.
Qed.

(** With a width of 0 the loops have no turn and every decoder returns the
    image it was given. *)
Lemma decode_zero_width fmt stream data H M :
  decode fmt stream (mk_image data 0 H M) = Returned (mk_image data 0 H M).
Proof.
  unfold decode. cbn [_width _height _data _max_value].
  assert (Hrows : forall pixel s, pixel_rows 0 H pixel s = Returned s).
  { intros pixel s. unfold pixel_rows, for_each.
    destruct (rows_invariant (fun (_ : nat) (s' : decoder_state) => s' = s) 1
                (Z.to_nat H) (Z.to_nat 0)
                (fun j i => pixel (wrap32 (i + wrap32 (j * 0)))) s)
      as (s' & E & ->); [done| |done].
    intros j k s1 _ Hk. cbn in Hk. lia. }
  assert (Hbits : forall s, bit_rows 0 H s = Returned s).
  { intros s. unfold bit_rows, for_each, for_each_8.
    change (2 ^ 32 - 8 <? 0) with false. cbv iota.
    destruct (rows_invariant (fun (_ : nat) (s' : decoder_state) => s' = s) 8
                (Z.to_nat H) (Z.to_nat ((0 + 7) / 8)) (fun j i => p4_byte 0 j i) s)
      as (s' & E & ->); [done| |done].
    intros j k s1 _ Hk. exfalso. revert Hk.
    change (Z.to_nat ((0 + 7) / 8)) with 0%nat. lia. }
  rewrite !Hrows, Hbits. by repeat destruct (eq0 _).
Qed.

Lemma avail_bytes_not_good s : good s = false -> avail_bytes s = [].
Proof. intros H. unfold avail_bytes. by rewrite H. Qed.

Lemma avail_chars_not_good s : good s = false -> avail_chars s = [].
Proof. intros H. unfold avail_chars. by rewrite H. Qed.

Lemma skip_space_not_good s : good s = false -> good (skip_space s) = false.
Proof.
  intros H. unfold skip_space. cbn [skip_space_loop]. unfold peek, sentry.
  rewrite H. cbn [isspace_int]. apply good_setstate_fail.
Qed.

End BrokenHeaders.

(** X11: when what stands where the width should be cannot start a number
    (a second comment line, a letter, ...), [LoadImage] does not fail for it:
    it stores a width of 0, leaves the height and the max-value as the image
    had them, empties the buffer, and returns true unless that old max-value
    is above 255. *)
Theorem width_that_is_no_number m cmt ws c r img :
  is_magic m = true ->
  match cmt with Some t => one_line t | None => true end = true ->
  all_space ws = true -> isspace c = false -> starts_number c = false ->
  starts_data cmt (ws ++ c :: r) = true ->
  LoadImage (Some (text m ++ [newline] ++ comment_text cmt ++ ws ++ c :: r)) img
  = Returned (negb (255 <? _max_value img),
              mk_image [] 0 (_height img) (_max_value img)).
Proof.
  intros Hm Hc Hws Hsp Hn Hs. rewrite LoadImage_behind_magic by done.
  unfold read_dimensions, read_max_value.
  replace (is_nil (ws ++ c :: r)) with false by (by destruct ws).
  rewrite extract_unsigned_not_a_number by done.
  rewrite !extract_unsigned_not_good by done.
  cbn [_width _height _data _max_value Z.mul]. change (Z.to_nat (wrap32 0)) with 0%nat.
  rewrite resize_0. destruct (255 <? _max_value img); [done|].
  unfold decode_and_return. by rewrite decode_zero_width.
Qed.

Lemma width_that_is_no_number_witness :
  let cmt := Some (text " first comment") in
  let r := text " second comment" ++ newline :: lines ["2 2"; "255"]%string
           ++ text "abcd" in
  is_magic "P5" = true
  /\ match cmt with Some t => one_line t | None => true end = true
  /\ all_space [] = true /\ isspace hash = false /\ starts_number hash = false
  /\ starts_data cmt ([] ++ hash :: r) = true
  /\ LoadImage (Some (lines ["P5"; "# first comment"; "# second comment"; "2 2";
                             "255"]%string ++ text "abcd")) (mk_image [7] 1 1 255)
     = Returned (true, mk_image [] 0 1 255).
Proof.
  intros cmt r. do 6 (split; [reflexivity|]).
  exact (width_that_is_no_number "P5" cmt [] hash r (mk_image [7] 1 1 255)
           eq_refl eq_refl eq_refl eq_refl eq_refl eq_refl).
Defined.

(** X12: a file that ends with the magic number's line, or has only a
    comment line and whitespace behind it, is not rejected: loaded into a
    default-constructed image it makes [LoadImage] return true and leaves
    the image as the constructor made it, so [IsInitialized] is still
    false. *)
Theorem header_without_numbers m cmt ws :
  is_magic m = true ->
  match cmt with Some t => one_line t | None => true end = true ->
  all_space ws = true ->
  LoadImage (Some (text m ++ [newline] ++ comment_text cmt ++ ws)) GraymapImage_new
  = Returned (true, GraymapImage_new)
  /\ IsInitialized GraymapImage_new = false.
Proof.
  intros Hm Hc Hws. split; [|done].
  assert (Hs : starts_data cmt ws = true).
  { destruct cmt; [done|]. destruct ws as [|c ws]; [done|]. cbn in *.
    apply andb_true_iff in Hws as [Hsp _]. apply negb_true_iff.
    destruct (Ascii.eqb_spec c hash) as [->|]; [discriminate Hsp|done]. }
  rewrite LoadImage_behind_magic by done. unfold read_dimensions, read_max_value.
  destruct (extract_unsigned_blank UINT_MAX ws (_width GraymapImage_new) Hws)
    as (s1 & -> & Hg).
  rewrite !extract_unsigned_not_good by (done || apply good_setstate_fail).
  cbn [_width _height _data _max_value GraymapImage_new Z.mul].
  change (Z.to_nat (wrap32 0)) with 0%nat. rewrite resize_0.
  change (255 <? 255) with false. cbv iota.
  unfold decode_and_return. by rewrite decode_zero_width.
Qed.

Lemma header_without_numbers_witness :
  is_magic "P2" = true
  /\ match Some (text " nothing follows") with
     | Some t => one_line t | None => true end = true
  /\ all_space [" "%char; newline] = true
  /\ LoadImage (Some (lines ["P2"; "# nothing follows"; " "]%string)) GraymapImage_new
     = Returned (true, GraymapImage_new)
  /\ IsInitialized GraymapImage_new = false.
Proof.
  do 3 (split; [reflexivity|]).
  exact (header_without_numbers "P2" (Some (text " nothing follows"))
           [" "%char; newline] eq_refl eq_refl eq_refl).
Defined.

(** X14: the same file with no numbers, loaded into an image that already
    holds W*H pixels (W*H below 2^32, max-value at most 255), still returns
    true and keeps the dimensions and the max-value. As P2 or P5 it leaves
    the pixels as they were: the old image is reported as loaded. As P1 it
    multiplies every pixel by 255 modulo 256, line 128 being executed for
    every entry although nothing was read. *)
Theorem header_without_numbers_keeps_image m cmt ws img :
  m = "P1"%string \/ m = "P2"%string \/ m = "P5"%string ->
  match cmt with Some t => one_line t | None => true end = true ->
  all_space ws = true ->
  0 <= _width img -> 0 <= _height img -> _width img * _height img < 2 ^ 32 ->
  length (_data img) = Z.to_nat (_width img * _height img) ->
  _max_value img <= 255 ->
  LoadImage (Some (text m ++ [newline] ++ comment_text cmt ++ ws)) img
  = Returned (true,
      mk_image ((if String.eqb m "P1" then times_255 else id) <$> _data img)
        (_width img) (_height img) (_max_value img)).
Proof.
  intros Hm Hc Hws HW HH Hwh Hlen Hmax.
  assert (Hmagic : is_magic m = true) by (by destruct Hm as [-> | [-> | ->]]).
  assert (Hs : starts_data cmt ws = true).
  { destruct cmt; [done|]. destruct ws as [|c ws]; [done|]. cbn in *.
    apply andb_true_iff in Hws as [Hsp _]. apply negb_true_iff.
    destruct (Ascii.eqb_spec c hash) as [->|]; [discriminate Hsp|done]. }
  rewrite LoadImage_behind_magic by done. unfold read_dimensions, read_max_value.
  destruct (extract_unsigned_blank UINT_MAX ws (_width img) Hws) as (s1 & -> & Hg).
  rewrite !extract_unsigned_not_good by (done || apply good_setstate_fail).
  cbn [_width _height _data _max_value].
  replace (255 <? _max_value img) with false by (symmetry; apply Z.ltb_ge; lia).
  rewrite wrap32_small by lia. rewrite resize_all_alt by done.
  set (stream := setstate_fail (setstate_fail s1)).
  assert (Hstream : good stream = false) by apply good_setstate_fail.
  unfold decode_and_return.
  assert (Hrows : forall avail f g pixel st,
            reads avail f g pixel -> avail st = [] ->
            exists st', pixel_rows (_width img) (_height img) pixel (st, _data img)
                        = Returned (st', g <$> _data img)).
  { intros avail f g pixel st Hreads Hav.
    destruct (pixel_rows_exact avail f g pixel (_width img) (_height img) st (_data img))
      as (st' & E); [done..|].
    rewrite Hav, take_nil in E. cbn [length drop fmap list_fmap app] in E.
    by exists st'. }
  destruct Hm as [-> | [-> | ->]].
  - rewrite decode_P1. cbn [_width _height _data _max_value].
    destruct (Hrows avail_chars _ _ p1_pixel stream p1_pixel_reads) as (st' & ->);
      [by apply avail_chars_not_good|done].
  - rewrite decode_P2. cbn [_width _height _data _max_value].
    destruct (Hrows avail_chars _ _ p2_pixel stream p2_pixel_reads) as (st' & ->);
      [by apply avail_chars_not_good|done].
  - rewrite decode_P5. cbn [_width _height _data _max_value].
    destruct (Hrows avail_bytes _ _ p5_pixel (skip_space stream) p5_pixel_reads)
      as (st' & ->); [|done].
    apply avail_bytes_not_good. by apply skip_space_not_good.
Qed.

Lemma header_without_numbers_keeps_image_witness :
  let img := mk_image [1; 2; 3; 4] 2 2 255 in
  ("P1"%string = "P1"%string \/ "P1"%string = "P2"%string \/ "P1"%string = "P5"%string)
  /\ match @None (list ascii) with Some t => one_line t | None => true end = true
  /\ all_space [] = true
  /\ 0 <= _width img /\ 0 <= _height img /\ _width img * _height img < 2 ^ 32
  /\ length (_data img) = Z.to_nat (_width img * _height img)
  /\ _max_value img <= 255
  /\ LoadImage (Some (lines ["P1"]%string)) img
     = Returned (true, mk_image [255; 254; 253; 252] 2 2 255).
Proof.
  intros img. split; [by left|]. do 2 (split; [reflexivity|]).
  do 2 (split; [discriminate|]). do 2 (split; [reflexivity|]).
  split; [discriminate|].
  exact (header_without_numbers_keeps_image "P1" None [] img (or_introl eq_refl)
           eq_refl eq_refl ltac:(discriminate) ltac:(discriminate) eq_refl eq_refl
           ltac:(discriminate)).
Defined.

(** C3 fails: the loop of lines 166-169 skips every whitespace byte behind
    the header, not only the one that ends it. In this valid 2x2 P5 file the
    first pixel byte is 32: it is skipped with the newline, the three bytes
    behind it move up by one and the last entry gets no byte, so
    [GetPixel(0, 0)] is 97 and not 32. *)
Lemma p5_whitespace_valued_pixel_is_lost :
  LoadImage (Some (lines ["P5"; "2 2"; "255"]%string ++ text " abc"))
    GraymapImage_new
  = Returned (true, mk_image [97; 98; 99; 0] 2 2 255)
  /\ GetPixel (mk_image [97; 98; 99; 0] 2 2 255) 0 0 = Some 97
  /\ uchar_of <$> text " abc" !! 0%nat = Some 32.
Proof. repeat split. Qed.

(** C3, amended: on a P5 file with a well-formed header, a max-value of at
    most 255 and W*H below 2^32, [LoadImage] returns true and the buffer has
    exactly W*H entries. The pixel bytes are read behind all the whitespace
    bytes that follow the header: for x < W and y < H, [GetPixel(x, y)] is,
    unscaled, the byte at position y*W+x of what follows that whitespace, or,
    when no byte is left for it, the entry that [resize] left there. So when
    the W*H pixel-data bytes are all there and the first of them is not a
    whitespace byte, [GetPixel(x, y)] is the pixel-data byte at position
    y*W+x. *)
Theorem p5_pixels_behind_whitespace h tail img :
  well_formed h = true -> h_magic h = "P5"%string -> ends_number tail = true ->
  decimal (h_max h) <= 255 ->
  let W := decimal (h_width h) in
  let H := decimal (h_height h) in
  W * H < 2 ^ 32 ->
  exists img',
    LoadImage (Some (header_text h ++ tail)) img = Returned (true, img')
    /\ GetWidth img' = W /\ GetHeight img' = H
    /\ GetMaxValue img' = decimal (h_max h)
    /\ Z.of_nat (length (_data img')) = W * H
    /\ (forall x y, 0 <= x < W -> 0 <= y < H ->
          GetPixel img' x y
          = match skipws tail !! Z.to_nat (y * W + x) with
            | Some c => Some (uchar_of c)
            | None => resize (Z.to_nat (W * H)) 0 (_data img) !! Z.to_nat (y * W + x)
            end)
    /\ (forall ws raster,
          tail = ws ++ raster -> all_space ws = true ->
          skipws raster = raster -> W * H <= Z.of_nat (length raster) ->
          forall x y, 0 <= x < W -> 0 <= y < H ->
            GetPixel img' x y = uchar_of <$> raster !! Z.to_nat (y * W + x)).
Proof.
  intros Hwf Hm Ht Hmax W H Hwh.
  destruct (well_formed_dimensions h Hwf) as [HW HH]. fold W in HW. fold H in HH.
  eexists. split; [by apply p5_load|]. fold W H.
  unfold GetWidth, GetHeight, GetMaxValue, GetPixel. cbn [_width _height _max_value _data].
  set (N := Z.to_nat (W * H)). set (pix := skipws tail).
  set (d0 := resize N 0 (_data img)).
  assert (Hd0 : length d0 = N) by apply length_resize.
  assert (Hpix : forall x y, 0 <= x < W -> 0 <= y < H ->
            ((uchar_of <$> take N pix) ++ drop (length pix) d0)
              !! Z.to_nat (wrap32 (y * W + x))
            = match pix !! Z.to_nat (y * W + x) with
              | Some c => Some (uchar_of c)
              | None => d0 !! Z.to_nat (y * W + x)
              end).
  { intros x y Hx Hy. rewrite wrap32_small by nia.
    set (k := Z.to_nat (y * W + x)). assert (Hk : (k < N)%nat) by (unfold k, N; nia).
    destruct (pix !! k) as [c|] eqn:Hc.
    - assert (k < length pix)%nat by (by apply lookup_lt_Some in Hc).
      rewrite lookup_app_l by (rewrite length_fmap, length_take; lia).
      by rewrite list_lookup_fmap, lookup_take_lt, Hc by done.
    - apply lookup_ge_None in Hc.
      rewrite lookup_app_r by (rewrite length_fmap, length_take; lia).
      rewrite length_fmap, length_take, lookup_drop. f_equal. lia. }
  repeat split.
  - rewrite length_app, length_fmap, length_take, length_drop, Hd0. unfold N. lia.
  - done.
  - intros ws raster -> Hws Hraster Hlen x y Hx Hy. rewrite Hpix by done.
    unfold pix. rewrite skipws_app, Hraster by done.
    destruct (lookup_lt_is_Some_2 raster (Z.to_nat (y * W + x))) as [c Hc]; [nia|].
    by rewrite Hc.
Qed.

Lemma p5_pixels_behind_whitespace_witness :
  let h := mk_header "P5" (Some (text " made by hand")) [] (text "2") (text " ")
             (text "2") [newline] (text "255") in
  let tail := newline :: text " abc" in
  well_formed h = true /\ h_magic h = "P5"%string /\ ends_number tail = true
  /\ decimal (h_max h) <= 255
  /\ decimal (h_width h) * decimal (h_height h) < 2 ^ 32
  /\ exists img',
       LoadImage (Some (header_text h ++ tail)) (mk_image [7] 1 1 255)
       = Returned (true, img')
       /\ GetWidth img' = decimal (h_width h) /\ GetHeight img' = decimal (h_height h)
       /\ GetMaxValue img' = decimal (h_max h)
       /\ Z.of_nat (length (_data img')) = decimal (h_width h) * decimal (h_height h)
       /\ (forall x y, 0 <= x < decimal (h_width h) -> 0 <= y < decimal (h_height h) ->
             GetPixel img' x y
             = match skipws tail !! Z.to_nat (y * decimal (h_width h) + x) with
               | Some c => Some (uchar_of c)
               | None =>
                   resize (Z.to_nat (decimal (h_width h) * decimal (h_height h))) 0
                     (_data (mk_image [7] 1 1 255))
                   !! Z.to_nat (y * decimal (h_width h) + x)
               end)
       /\ (forall ws raster,
             tail = ws ++ raster -> all_space ws = true ->
             skipws raster = raster ->
             decimal (h_width h) * decimal (h_height h) <= Z.of_nat (length raster) ->
             forall x y, 0 <= x < decimal (h_width h) -> 0 <= y < decimal (h_height h) ->
               GetPixel img' x y
               = uchar_of <$> raster !! Z.to_nat (y * decimal (h_width h) + x)).
Proof.
  intros h tail.
  split; [reflexivity|]. split; [reflexivity|]. split; [reflexivity|].
  split; [discriminate|]. split; [reflexivity|].
  apply (p5_pixels_behind_whitespace h tail (mk_image [7] 1 1 255));
    [reflexivity|reflexivity|reflexivity|discriminate|reflexivity].
Defined.

(** The image of the witness above: the byte 32 is skipped, the entry
    without a byte is the 0 that [resize] appended behind the old entry 7,
    which is overwritten. *)
Example p5_2x2_behind_a_space :
  LoadImage (Some (lines ["P5"; "# made by hand"; "2 2"; "255"]%string ++ text " abc"))
    (mk_image [7] 1 1 255)
  = Returned (true, mk_image [97; 98; 99; 0] 2 2 255).
Proof. reflexivity. Qed.
